(** * beehiiv-rss-feed: a shallow embedding of [api/rss.js]

    The file models the serverless handler and the feed renderer of
    [api/rss.js] and proves the properties its specification states about
    them.  JavaScript strings are modelled as [string] (sequences of 8-bit
    units; every character the code inspects is ASCII), [process.env] as a
    finite map from names to strings, the wall clock and the upstream API as
    explicit parts of the world the handler runs in. *)

From Stdlib Require Import ZArith Lia Ascii DecimalString.
From stdpp Require Import gmap strings.

(** ** Strings *)

(** Appending to a string that starts with a known character reduces. *)
#[global] Arguments String.append !s1 s2.

Module Str.

(** [s.startsWith(p)] *)
Fixpoint startsWith (p s : string) : bool :=
  match p, s with
  | "", _ => true
  | String a p', String b s' => if Ascii.eqb a b then startsWith p' s' else false
  | String _ _, "" => false
  end.

(** [s.includes(p)] *)
Fixpoint includes (p s : string) : bool :=
  startsWith p s ||
  match s with
  | "" => false
  | String _ s' => includes p s'
  end.

(** [xs.join('')] *)
Definition join (xs : list string) : string := String.concat "" xs.

(** The characters of [s] all satisfy [P]. *)
Fixpoint all (P : ascii -> bool) (s : string) : bool :=
  match s with
  | "" => true
  | String c s' => P c && all P s'
  end.

End Str.

(** ** Regular expressions

    The fragment of ECMAScript regular expressions used by the source: a
    pattern is a sequence of atoms, an atom is a character class, a greedy
    star of a class, or a lazy star of a class.  [matchAt] is the
    backtracking matcher: it returns the input left after the first match
    in priority order. *)

Module Regex.

Inductive atom :=
| Chr (p : ascii -> bool)          (* one character of the class *)
| StarGreedy (p : ascii -> bool)   (* [C*]  *)
| StarLazy (p : ascii -> bool).    (* [C*?] *)

Definition regex := list atom.

(** [C*] followed by the rest of the pattern [k]: as many characters of the
    class as possible, giving them back one at a time while [k] fails. *)
Fixpoint starGreedy (p : ascii -> bool) (k : string -> option string)
  (s : string) : option string :=
  match s with
  | String c s' =>
      if p c then
        match starGreedy p k s' with
        | Some rest => Some rest
        | None => k s
        end
      else k s
  | "" => k s
  end.

(** [C*?] followed by the rest of the pattern [k]: as few characters of the
    class as possible, taking one more each time [k] fails. *)
Fixpoint starLazy (p : ascii -> bool) (k : string -> option string)
  (s : string) : option string :=
  match k s with
  | Some rest => Some rest
  | None =>
      match s with
      | String c s' => if p c then starLazy p k s' else None
      | "" => None
      end
  end.

Fixpoint matchAt (r : regex) (s : string) {struct r} : option string :=
  match r with
  | [] => Some s
  | Chr p :: r' =>
      match s with
      | String c s' => if p c then matchAt r' s' else None
      | "" => None
      end
  | StarGreedy p :: r' => starGreedy p (matchAt r') s
  | StarLazy p :: r' => starLazy p (matchAt r') s
  end.

(** [s.replace(/r/g, by)]: every match of [r], found left to right from
    the end of the previous one, is replaced by [by].  [skip] counts the
    characters of the current match still to be dropped.  After an empty
    match the scan advances by one character, which is copied. *)
Fixpoint replaceFrom (r : regex) (by_ : string) (skip : nat) (s : string)
  {struct s} : string :=
  match s with
  | "" =>
      match skip, matchAt r "" with
      | 0, Some _ => by_
      | _, _ => ""
      end
  | String c s' =>
      match skip with
      | S k => replaceFrom r by_ k s'
      | 0 =>
          match matchAt r s with
          | Some rest =>
              by_ +:+
              match String.length s - String.length rest with
              | 0 => String c (replaceFrom r by_ 0 s')
              | S k => replaceFrom r by_ k s'
              end
          | None => String c (replaceFrom r by_ 0 s')
          end
      end
  end.

Definition replaceAll (r : regex) (by_ : string) (s : string) : string :=
  replaceFrom r by_ 0 s.

(** Character classes. *)
Definition lit (a : ascii) : ascii -> bool := Ascii.eqb a.
Definition notChr (a : ascii) : ascii -> bool := fun c => negb (Ascii.eqb a c).
Definition anyChr : ascii -> bool := fun _ => true.

(** ASCII case folding, as the [i] flag does on the characters used. *)
Definition lower (c : ascii) : ascii :=
  let n := nat_of_ascii c in
  if (65 <=? n) && (n <=? 90) then ascii_of_nat (n + 32) else c.

Definition litCI (a : ascii) : ascii -> bool :=
  fun c => Ascii.eqb (lower a) (lower c).

(** A literal word, one atom per character. *)
Fixpoint word (cls : ascii -> ascii -> bool) (w : string) : regex :=
  match w with
  | "" => []
  | String a w' => Chr (cls a) :: word cls w'
  end.

End Regex.

Import Regex.

(** ** The helpers of [generateRSSFeed] *)

(** The double quote character. *)
Definition dquote : ascii := "034"%char.

(** A regular expression matching the one character [a], as in [/&/g]. *)
Definition reChar (a : ascii) : regex := [Chr (lit a)].

(** [escapeXml] *)
Definition escapeXml (str : string) : string :=
  if String.eqb str "" then ""
  else
    replaceAll (reChar "'") "&#39;"
      (replaceAll (reChar dquote) "&quot;"
        (replaceAll (reChar ">") "&gt;"
          (replaceAll (reChar "<") "&lt;"
            (replaceAll (reChar "&") "&amp;" str)))).

(** [/<tag[^>]*>[\s\S]*?<\/tag>/gi] *)
Definition reBlock (tag : string) : regex :=
  word litCI ("<" +:+ tag)
    ++ [StarGreedy (notChr ">"); Chr (lit ">"); StarLazy anyChr]
    ++ word litCI ("</" +:+ tag +:+ ">").

(** [cleanHtmlContent] *)
Definition cleanHtmlContent (html : string) : string :=
  if String.eqb html "" then ""
  else
    let cleaned := replaceAll (reBlock "script") "" html in
    let cleaned := replaceAll (reBlock "style") "" cleaned in
    cleaned.

(** ** Numbers and dates

    [Number] to string for integers, and the two [Date] methods the source
    calls.  A time value is a number of milliseconds since the epoch; the
    calendar fields are those of the proleptic Gregorian calendar in UTC,
    as ECMA-262 defines them. *)

Module JSDate.

(** [`${n}`] for an integer [n] *)
Definition decimal (n : Z) : string := NilZero.string_of_int (Z.to_int n).

Fixpoint zeros (n : nat) : string :=
  match n with
  | 0 => ""
  | S k => String "0" (zeros k)
  end.

(** [ToZeroPaddedDecimalString(n, w)] for [0 <= n] *)
Definition padded (w : nat) (n : Z) : string :=
  let s := decimal n in zeros (w - String.length s) +:+ s.

Definition msPerDay : Z := 86400000.

(** A time value is valid when [|t| <= 8.64e15]; [new Date(t)] of any
    other number is an invalid date. *)
Definition valid (t : Z) : bool := (Z.abs t <=? 8640000000000000)%Z.

Definition Day (t : Z) : Z := (t / msPerDay)%Z.
Definition WeekDay (t : Z) : Z := ((Day t + 4) mod 7)%Z.
Definition HourFromTime (t : Z) : Z := ((t / 3600000) mod 24)%Z.
Definition MinFromTime (t : Z) : Z := ((t / 60000) mod 60)%Z.
Definition SecFromTime (t : Z) : Z := ((t / 1000) mod 60)%Z.
Definition msFromTime (t : Z) : Z := (t mod 1000)%Z.

(** Year, month (1..12) and day of the month (1..31) of a day number. *)
Definition civil (days : Z) : Z * Z * Z :=
  (let z := days + 719468 in
   let era := z / 146097 in
   let doe := z - era * 146097 in
   let yoe := (doe - doe / 1460 + doe / 36524 - doe / 146096) / 365 in
   let doy := doe - (365 * yoe + yoe / 4 - yoe / 100) in
   let mp := (5 * doy + 2) / 153 in
   let d := doy - (153 * mp + 2) / 5 + 1 in
   let m := if mp <? 10 then mp + 3 else mp - 9 in
   let y := yoe + era * 400 + (if m <=? 2 then 1 else 0) in
   (y, m, d))%Z.

Definition YearFromTime (t : Z) : Z := (civil (Day t)).1.1.
Definition MonthFromTime (t : Z) : Z := (civil (Day t)).1.2.
Definition DateFromTime (t : Z) : Z := (civil (Day t)).2.

Definition dayNames : list string :=
  ["Sun"; "Mon"; "Tue"; "Wed"; "Thu"; "Fri"; "Sat"].
Definition monthNames : list string :=
  ["Jan"; "Feb"; "Mar"; "Apr"; "May"; "Jun";
   "Jul"; "Aug"; "Sep"; "Oct"; "Nov"; "Dec"].

Definition name (names : list string) (i : Z) : string :=
  nth (Z.to_nat i) names "".

Definition timeOfDay (t : Z) : string :=
  padded 2 (HourFromTime t) +:+ ":" +:+ padded 2 (MinFromTime t)
    +:+ ":" +:+ padded 2 (SecFromTime t).

(** [new Date(t).toUTCString()] *)
Definition toUTCString (t : Z) : string :=
  if valid t then
    let y := YearFromTime t in
    name dayNames (WeekDay t) +:+ ", " +:+ padded 2 (DateFromTime t)
      +:+ " " +:+ name monthNames (MonthFromTime t - 1)
      +:+ " " +:+ (if (y <? 0)%Z then "-" else "") +:+ padded 4 (Z.abs y)
      +:+ " " +:+ timeOfDay t +:+ " GMT"
  else "Invalid Date".

(** [new Date(t).toISOString()] for a valid [t] (the source applies it
    to [new Date()] only, which is always valid). *)
Definition toISOString (t : Z) : string :=
  let y := YearFromTime t in
  (if ((0 <=? y) && (y <=? 9999))%Z then padded 4 y
   else (if (y <? 0)%Z then "-" else "+") +:+ padded 6 (Z.abs y))
    +:+ "-" +:+ padded 2 (MonthFromTime t)
    +:+ "-" +:+ padded 2 (DateFromTime t)
    +:+ "T" +:+ timeOfDay t +:+ "." +:+ padded 3 (msFromTime t) +:+ "Z".

End JSDate.

(** ** The world the code runs in *)

(** The wall clock: the current time and the delays by which it will have
    advanced at each later reading.  Readings never go backwards. *)
Module Clock.

Record t := { now : Z; ticks : list N }.

(** [new Date()]: the time value read, and the clock after the reading. *)
Definition read (c : t) : Z * t :=
  match ticks c with
  | [] => (now c, c)
  | d :: ds =>
      let n := (now c + Z.of_N d)%Z in (n, {| now := n; ticks := ds |})
  end.

End Clock.

(** An outbound HTTP request. *)
Record Request := {
  url : string;
  method : string;
  headers : list (string * string)
}.

(** What the handler does to the outside, in order.  [ConsoleErrorObject]
    is [console.error(label, error)] for a caught [Error] with that
    message: how the runtime prints the object (its name, its stack) is
    not part of the event. *)
Inductive Event :=
| ConsoleLog (message : string)
| ConsoleError (message : string)
| ConsoleErrorObject (label : string) (errorMessage : string)
| Fetch (request : Request).

Record World := { clock : Clock.t; trace : list Event }.

(** A computation either returns or throws an [Error] with a message, and
    changes the world. *)
Inductive Result (A : Type) :=
| Ok (a : A)
| Throw (message : string).
Arguments Ok {A} a.
Arguments Throw {A} message.

Definition M (A : Type) : Type := World -> Result A * World.

Definition ret {A} (a : A) : M A := fun w => (Ok a, w).

Definition throw {A} (message : string) : M A := fun w => (Throw message, w).

Definition bind {A B} (m : M A) (k : A -> M B) : M B :=
  fun w =>
    match m w with
    | (Ok a, w') => k a w'
    | (Throw e, w') => (Throw e, w')
    end.

(** [try { body } catch (error) { handle(error.message) }] *)
Definition tryCatch {A} (body : M A) (handle : string -> M A) : M A :=
  fun w =>
    match body w with
    | (Ok a, w') => (Ok a, w')
    | (Throw e, w') => handle e w'
    end.

#[global] Instance M_ret : MRet M := @ret.
#[global] Instance M_bind : MBind M := fun A B k m => bind m k.

Definition emit (e : Event) : M unit :=
  fun w => (Ok tt, {| clock := clock w; trace := trace w ++ [e] |}).

Definition consoleLog (message : string) : M unit := emit (ConsoleLog message).
Definition consoleError (message : string) : M unit := emit (ConsoleError message).
Definition consoleErrorObject (label errorMessage : string) : M unit :=
  emit (ConsoleErrorObject label errorMessage).

(** [new Date()] *)
Definition newDate : M Z :=
  fun w =>
    let (n, c) := Clock.read (clock w) in
    (Ok n, {| clock := c; trace := trace w |}).

(** ** Data model *)

(** The feed configuration passed to [generateRSSFeed]. *)
Module Config.
Record t := {
  title : string;
  description : string;
  feedUrl : string;
  authorEmail : string
}.
End Config.

(** A post record of the upstream API.  A field that may be missing is an
    [option]; [publish_date] is a number (a time value). *)
Module Post.
Record free_t := { web : option string }.
Record content_t := { free : option free_t }.
Record t := {
  id : string;
  status : option string;
  publish_date : option Z;
  web_url : option string;
  title : option string;
  subtitle : option string;
  content : option content_t
}.
End Post.

(** [a || b] where [a] is a string or missing: the empty string is falsy. *)
Definition orElse (a : option string) (b : string) : string :=
  match a with
  | Some s => if String.eqb s "" then b else s
  | None => b
  end.

(** [!a] where [a] is a string or missing. *)
Definition falsy (a : option string) : bool :=
  match a with
  | Some s => String.eqb s ""
  | None => true
  end.

(** [`${a}`] where [a] is a string or missing. *)
Definition str (a : option string) : string := default "undefined" a.

(** [xs.slice(lo, hi)] for [0 <= lo <= hi] *)
Definition slice {A} (lo hi : nat) (xs : list A) : list A :=
  firstn (hi - lo) (skipn lo xs).

Definition nl : string := String "010"%char "".
Definition q : string := String dquote "".

(** ** [generateRSSFeed] *)

(** [post.status === 'confirmed'] *)
Definition isConfirmed (post : Post.t) : bool :=
  match Post.status post with
  | Some s => String.eqb s "confirmed"
  | None => false
  end.

(** [post.content?.free?.web] *)
Definition freeWeb (post : Post.t) : option string :=
  match Post.content post with
  | Some c =>
      match Post.free c with
      | Some f => Post.web f
      | None => None
      end
  | None => None
  end.

(** The callback of [.map]: one post to one [<item>] element. *)
Definition rssItem (config : Config.t) (currentDate : string) (post : Post.t)
  : string :=
  let feedUrl := Config.feedUrl config in
  let authorEmail := Config.authorEmail config in
  let pubDate :=
    match Post.publish_date post with
    | Some d => if (d =? 0)%Z then currentDate else JSDate.toUTCString d
    | None => currentDate
    end in
  let postUrl :=
    orElse (Post.web_url post) (feedUrl +:+ "/post/" +:+ Post.id post) in
  let content :=
    cleanHtmlContent (orElse (freeWeb post) (orElse (Post.subtitle post) "")) in
  let title := escapeXml (orElse (Post.title post) "Untitled Post") in
  nl +:+ "    <item>" +:+ nl
  +:+ "      <title>" +:+ title +:+ "</title>" +:+ nl
  +:+ "      <link>" +:+ postUrl +:+ "</link>" +:+ nl
  +:+ "      <guid>" +:+ postUrl +:+ "</guid>" +:+ nl
  +:+ "      <pubDate>" +:+ pubDate +:+ "</pubDate>" +:+ nl
  +:+ "      <author>" +:+ authorEmail +:+ "</author>" +:+ nl
  +:+ "      <description><![CDATA[" +:+ content +:+ "]]></description>" +:+ nl
  +:+ "    </item>".

Definition generateRSSFeed (posts : list Post.t) (config : Config.t) : M string :=
  let title := Config.title config in
  let description := Config.description config in
  let feedUrl := Config.feedUrl config in
  let authorEmail := Config.authorEmail config in
  now ← newDate;
  let currentDate := JSDate.toUTCString now in
  let rssItems :=
    Str.join (map (rssItem config currentDate)
                (slice 0 20 (List.filter isConfirmed posts))) in
  mret
    ("<?xml version=" +:+ q +:+ "1.0" +:+ q +:+ " encoding=" +:+ q +:+ "UTF-8"
     +:+ q +:+ "?>" +:+ nl
     +:+ "<rss version=" +:+ q +:+ "2.0" +:+ q
     +:+ " xmlns:content=" +:+ q +:+ "http://purl.org/rss/1.0/modules/content/"
     +:+ q +:+ " xmlns:dc=" +:+ q +:+ "http://purl.org/dc/elements/1.1/" +:+ q
     +:+ ">" +:+ nl
     +:+ "  <channel>" +:+ nl
     +:+ "    <title>" +:+ escapeXml title +:+ "</title>" +:+ nl
     +:+ "    <link>" +:+ feedUrl +:+ "</link>" +:+ nl
     +:+ "    <description>" +:+ escapeXml description +:+ "</description>" +:+ nl
     +:+ "    <language>en-us</language>" +:+ nl
     +:+ "    <lastBuildDate>" +:+ currentDate +:+ "</lastBuildDate>" +:+ nl
     +:+ "    <managingEditor>" +:+ authorEmail +:+ "</managingEditor>" +:+ nl
     +:+ "    <webMaster>" +:+ authorEmail +:+ "</webMaster>" +:+ nl
     +:+ "    <generator>Beehiiv to Squarespace RSS Generator</generator>" +:+ nl
     +:+ "    <ttl>60</ttl>" +:+ rssItems +:+ nl
     +:+ "  </channel>" +:+ nl
     +:+ "</rss>").

(** ** [handler] *)

(** The upstream response: its status, its body as text, and its body as
    parsed by [.json()] (a rejection carries the parser's message).  A
    parsed body is an object whose [data], when there, is a list of posts. *)
Module ApiBody.
Record t := { data : option (list Post.t) }.
End ApiBody.

Inductive JsonResult :=
| JsonRejected (message : string)
| JsonResolved (body : ApiBody.t).

Record UpstreamResponse := {
  status : Z;
  text : string;
  json : JsonResult
}.

(** [response.ok] *)
Definition ok (r : UpstreamResponse) : bool :=
  ((200 <=? status r) && (status r <=? 299))%Z.

(** The network: what a [fetch] of a request resolves or rejects with. *)
Inductive FetchResult :=
| FetchRejected (message : string)
| FetchResolved (response : UpstreamResponse).

Definition Network := Request -> FetchResult.

(** [await fetch(url, init)] *)
Definition fetch (net : Network) (request : Request) : M UpstreamResponse :=
  emit (Fetch request);;
  match net request with
  | FetchRejected e => throw e
  | FetchResolved r => mret r
  end.

(** [await response.json()] *)
Definition readJson (r : UpstreamResponse) : M ApiBody.t :=
  match json r with
  | JsonRejected e => throw e
  | JsonResolved b => mret b
  end.

(** The response written through [res]. *)
Inductive Body :=
| JsonBody (fields : list (string * string))
| TextBody (content : string).

Record HttpResponse := {
  statusCode : Z;
  resHeaders : list (string * string);
  body : Body
}.

Definition handler (net : Network) (env : gmap string string) : M HttpResponse :=
  let API_KEY := env !! "BEEHIIV_API_KEY" in
  let PUBLICATION_ID := env !! "BEEHIIV_PUBLICATION_ID" in
  let FEED_TITLE := orElse (env !! "FEED_TITLE") "Your Newsletter" in
  let FEED_DESCRIPTION :=
    orElse (env !! "FEED_DESCRIPTION") "Latest posts from your newsletter" in
  let FEED_URL := orElse (env !! "FEED_URL") "https://your-site.com" in
  let AUTHOR_EMAIL := orElse (env !! "AUTHOR_EMAIL") "your-email@domain.com" in
  if falsy API_KEY || falsy PUBLICATION_ID then
    mret {| statusCode := 500;
            resHeaders := [];
            body := JsonBody
              [("error", "Missing required environment variables");
               ("details",
                "BEEHIIV_API_KEY and BEEHIIV_PUBLICATION_ID must be set in Vercel dashboard")] |}
  else
    let BEEHIIV_API_URL :=
      "https://api.beehiiv.com/v2/publications/" +:+ str PUBLICATION_ID
        +:+ "/posts" in
    tryCatch
      (consoleLog "Fetching posts from Beehiiv API...";;
       beehiivResponse ← fetch net
         {| url := BEEHIIV_API_URL;
            method := "GET";
            headers := [("Content-Type", "application/json");
                        ("Authorization", "Bearer " +:+ str API_KEY)] |};
       (if negb (ok beehiivResponse) then
          let errorText := text beehiivResponse in
          consoleError ("Beehiiv API Error: " +:+ errorText);;
          throw ("Beehiiv API responded with status: "
                   +:+ JSDate.decimal (status beehiivResponse)
                   +:+ " - " +:+ errorText)
        else mret tt);;
       data ← readJson beehiivResponse;
       consoleLog ("Successfully fetched "
                     +:+ JSDate.decimal
                           (Z.of_nat (length (default [] (ApiBody.data data))))
                     +:+ " posts");;
       rssXml ← generateRSSFeed (default [] (ApiBody.data data))
         {| Config.title := FEED_TITLE;
            Config.description := FEED_DESCRIPTION;
            Config.feedUrl := FEED_URL;
            Config.authorEmail := AUTHOR_EMAIL |};
       mret {| statusCode := 200;
               resHeaders :=
                 [("Content-Type", "application/rss+xml; charset=utf-8");
                  ("Cache-Control",
                   "public, s-maxage=3600, stale-while-revalidate=86400")];
               body := TextBody rssXml |})
      (fun message =>
         consoleErrorObject "Error generating RSS feed:" message;;
         now ← newDate;
         mret {| statusCode := 500;
                 resHeaders := [];
                 body := JsonBody
                   [("error", "Failed to generate RSS feed");
                    ("details", message);
                    ("timestamp", JSDate.toISOString now)] |}).

(** ** The specification's view of the output

    Definitions that follow the words of the specification, to be compared
    with the code above. *)

Module Spec.

(** The entity the specification gives each of the five characters. *)
Definition entity (c : ascii) : string :=
  if Ascii.eqb c "&" then "&amp;"
  else if Ascii.eqb c "<" then "&lt;"
  else if Ascii.eqb c ">" then "&gt;"
  else if Ascii.eqb c dquote then "&quot;"
  else if Ascii.eqb c "'" then "&#39;"
  else String c "".

(** Replace every character by a string. *)
Fixpoint substitute (f : ascii -> string) (s : string) : string :=
  match s with
  | "" => ""
  | String c s' => f c +:+ substitute f s'
  end.

(** XML escaping: every character of the input is replaced, once, by its
    entity. *)
Definition escape (s : string) : string := substitute entity s.

(** [w] and [s] are the same word up to the case of letters. *)
Fixpoint eqCI (w s : string) : bool :=
  match w, s with
  | "", "" => true
  | String a w', String b s' => litCI a b && eqCI w' s'
  | _, _ => false
  end.

(** [s] starts with the word [w] up to the case of letters. *)
Fixpoint startsWithCI (w s : string) : bool :=
  match w, s with
  | "", _ => true
  | String a w', String b s' => litCI a b && startsWithCI w' s'
  | String _ _, "" => false
  end.

(** A block of a tag: the opening [<tag], in any case, the rest of the
    opening tag up to its [>], a body of any characters, line ends
    included, and the first closing [</tag>], in any case, after the
    opening tag. *)
Definition is_block (tag b : string) : Prop :=
  exists opening attrs body closing,
    b = opening +:+ attrs +:+ ">" +:+ body +:+ closing
    /\ eqCI ("<" +:+ tag) opening = true
    /\ Str.all (notChr ">") attrs = true
    /\ eqCI ("</" +:+ tag +:+ ">") closing = true
    /\ forall body1 body2,
         body = body1 +:+ body2 -> body2 <> "" ->
         startsWithCI ("</" +:+ tag +:+ ">") (body2 +:+ closing) = false.

(** [strips tag s out]: [out] is [s] without its blocks of [tag], read
    from left to right: where a block starts it is dropped and reading
    goes on after it; any other character is kept. *)
Inductive strips (tag : string) : string -> string -> Prop :=
| strips_end : strips tag "" ""
| strips_block (b rest out : string) :
    is_block tag b -> strips tag rest out -> strips tag (b +:+ rest) out
| strips_char (c : ascii) (s out : string) :
    (forall b rest, is_block tag b -> String c s <> b +:+ rest) ->
    strips tag s out -> strips tag (String c s) (String c out).

(** The posts that get an item: the first 20 confirmed ones, in order. *)
Definition kept (posts : list Post.t) : list Post.t :=
  firstn 20 (List.filter isConfirmed posts).

End Spec.

(** ** The document as a tree

    The rendered document seen as the specification describes it: a
    channel with named children in order, followed by items with named
    children in order.  [esc] is what is applied to the values that are
    URLs, e-mail addresses and dates. *)

Module Feed.

(** One child element, on a line of its own. *)
Definition element (indent : string) (child : string * string) : string :=
  nl +:+ indent +:+ "<" +:+ child.1 +:+ ">" +:+ child.2
     +:+ "</" +:+ child.1 +:+ ">".

Definition elements (indent : string) (children : list (string * string))
  : string :=
  Str.join (map (element indent) children).

Definition pubDate (currentDate : string) (post : Post.t) : string :=
  match Post.publish_date post with
  | Some d => if (d =? 0)%Z then currentDate else JSDate.toUTCString d
  | None => currentDate
  end.

Definition postUrl (config : Config.t) (post : Post.t) : string :=
  orElse (Post.web_url post)
    (Config.feedUrl config +:+ "/post/" +:+ Post.id post).

Definition descriptionSource (post : Post.t) : string :=
  orElse (freeWeb post) (orElse (Post.subtitle post) "").

Definition channelChildren (esc : string -> string) (config : Config.t)
  (currentDate : string) : list (string * string) :=
  [("title", Spec.escape (Config.title config));
   ("link", esc (Config.feedUrl config));
   ("description", Spec.escape (Config.description config));
   ("language", "en-us");
   ("lastBuildDate", currentDate);
   ("managingEditor", esc (Config.authorEmail config));
   ("webMaster", esc (Config.authorEmail config));
   ("generator", "Beehiiv to Squarespace RSS Generator");
   ("ttl", "60")].

Definition itemChildren (esc : string -> string) (config : Config.t)
  (currentDate : string) (post : Post.t) : list (string * string) :=
  [("title", Spec.escape (orElse (Post.title post) "Untitled Post"));
   ("link", esc (postUrl config post));
   ("guid", esc (postUrl config post));
   ("pubDate", esc (pubDate currentDate post));
   ("author", esc (Config.authorEmail config));
   ("description",
    "<![CDATA[" +:+ cleanHtmlContent (descriptionSource post) +:+ "]]>")].

Definition item (children : list (string * string)) : string :=
  nl +:+ "    <item>" +:+ elements "      " children +:+ nl +:+ "    </item>".

Definition prologue : string :=
  "<?xml version=" +:+ q +:+ "1.0" +:+ q +:+ " encoding=" +:+ q +:+ "UTF-8"
    +:+ q +:+ "?>" +:+ nl
    +:+ "<rss version=" +:+ q +:+ "2.0" +:+ q
    +:+ " xmlns:content=" +:+ q +:+ "http://purl.org/rss/1.0/modules/content/"
    +:+ q +:+ " xmlns:dc=" +:+ q +:+ "http://purl.org/dc/elements/1.1/" +:+ q
    +:+ ">".

(** One [rss] element holding one [channel] element: the channel's
    children, then the items. *)
Definition document (channel : list (string * string))
  (items : list (list (string * string))) : string :=
  prologue +:+ nl +:+ "  <channel>" +:+ elements "    " channel
    +:+ Str.join (map item items) +:+ nl +:+ "  </channel>" +:+ nl +:+ "</rss>".

(** The document of a list of posts at a build date. *)
Definition render (esc : string -> string) (config : Config.t)
  (currentDate : string) (posts : list Post.t) : string :=
  document (channelChildren esc config currentDate)
    (map (itemChildren esc config currentDate) (Spec.kept posts)).

End Feed.

(** ** Definitions used in the statements *)

(** The time value [generateRSSFeed] reads, and the world it leaves. *)
Definition reading (w : World) : Z := (Clock.read (clock w)).1.

(** The world after that reading: the clock has advanced, nothing is logged. *)
Definition after_reading (w : World) : World :=
  {| clock := (Clock.read (clock w)).2; trace := trace w |}.

(** The children of the channel and of an item, in document order. *)
Definition channelTags : list string :=
  ["title"; "link"; "description"; "language"; "lastBuildDate";
   "managingEditor"; "webMaster"; "generator"; "ttl"].

Definition itemTags : list string :=
  ["title"; "link"; "guid"; "pubDate"; "author"; "description"].

(** The characters that [escapeXml] never leaves in its result. *)
Definition isMarkup (c : ascii) : bool :=
  Ascii.eqb c "<" || Ascii.eqb c ">" || Ascii.eqb c dquote || Ascii.eqb c "'".

(** The claim that every listed value is escaped: the document is the one
    in which the URL, e-mail and date values are escaped as well. *)
Definition escapes_every_value
  (posts : list Post.t) (config : Config.t) (w : World) : Prop :=
  (generateRSSFeed posts config w).1
  = Ok (Feed.render Spec.escape config (JSDate.toUTCString (reading w)) posts).

(** A confirmed post whose URL has a query string. *)
Definition post_with_query : Post.t :=
  {| Post.id := "p1";
     Post.status := Some "confirmed";
     Post.publish_date := Some 1700000000000%Z;
     Post.web_url := Some "https://example.com/p/1?a=1&b=2";
     Post.title := Some "Q&A";
     Post.subtitle := None;
     Post.content := None |}.

(** A configuration and a world to run the examples in. *)
Definition sample_config : Config.t :=
  {| Config.title := "News";
     Config.description := "Latest";
     Config.feedUrl := "https://example.com";
     Config.authorEmail := "me@example.com" |}.

Definition sample_world : World :=
  {| clock := {| Clock.now := 1700000000000; Clock.ticks := [250%N] |};
     trace := [] |}.

(** A confirmed post with nothing but an identifier. *)
Definition bare_post : Post.t :=
  {| Post.id := "42";
     Post.status := Some "confirmed";
     Post.publish_date := None;
     Post.web_url := None;
     Post.title := None;
     Post.subtitle := None;
     Post.content := None |}.

(** The answer to a request when a required variable is not set. *)
Definition configError : HttpResponse :=
  {| statusCode := 500;
     resHeaders := [];
     body := JsonBody
       [("error", "Missing required environment variables");
        ("details",
         "BEEHIIV_API_KEY and BEEHIIV_PUBLICATION_ID must be set in Vercel dashboard")] |}.

(** The request the handler sends upstream. *)
Definition upstreamRequest (apiKey publicationId : string) : Request :=
  {| url := "https://api.beehiiv.com/v2/publications/" +:+ publicationId
              +:+ "/posts";
     method := "GET";
     headers := [("Content-Type", "application/json");
                 ("Authorization", "Bearer " +:+ apiKey)] |}.

(** The [Fetch] events of a trace. *)
Definition fetches (events : list Event) : list Request :=
  omap (fun e => match e with Fetch r => Some r | _ => None end) events.

(** A network whose upstream is rate limiting. *)
Definition failing_network : Network :=
  fun _ =>
    FetchResolved
      {| status := 503; text := "rate limited"; json := JsonRejected "not JSON" |}.

(** The claim that the time of the call shows in lastBuildDate only: around
    that element, the document is the same at every time. *)
Definition only_lastBuildDate_varies
  (posts : list Post.t) (config : Config.t) : Prop :=
  exists pre suf, forall w,
    (generateRSSFeed posts config w).1
    = Ok (pre +:+ "<lastBuildDate>" +:+ JSDate.toUTCString (reading w)
            +:+ "</lastBuildDate>" +:+ suf).

(** A post has a publication date the renderer uses. *)
Definition dated (post : Post.t) : Prop :=
  exists d, Post.publish_date post = Some d /\ d <> 0%Z.

(** The publication date the renderer formats: a date of 0 is taken for
    none. *)
Definition publishTime (post : Post.t) : option Z :=
  match Post.publish_date post with
  | Some t => if (t =? 0)%Z then None else Some t
  | None => None
  end.

(** The text of an item before and after the date of its pubDate. *)
Definition itemBefore (config : Config.t) (post : Post.t) : string :=
  nl +:+ "    <item>"
    +:+ Feed.elements "      "
          (firstn 3 (Feed.itemChildren id config "" post))
    +:+ nl +:+ "      ".

Definition itemAfter (config : Config.t) (post : Post.t) : string :=
  Feed.elements "      " (skipn 4 (Feed.itemChildren id config "" post))
    +:+ nl +:+ "    </item>".

(** The world at time [t], with nothing logged yet. *)
Definition world_at (t : Z) : World :=
  {| clock := {| Clock.now := t; Clock.ticks := [] |}; trace := [] |}.

(** The input left after the word [w], in any case, at the start of [s]. *)
Fixpoint dropCI (w s : string) : option string :=
  match w, s with
  | "", _ => Some s
  | String a w', String b s' => if litCI a b then dropCI w' s' else None
  | String _ _, "" => None
  end.

(** The input left after the first [>] of [s]. *)
Fixpoint afterGt (s : string) : option string :=
  match s with
  | "" => None
  | String c s' => if Ascii.eqb ">" c then Some s' else afterGt s'
  end.

(** The input left after the first occurrence of the word [w], in any
    case, in [s]. *)
Fixpoint findClose (w s : string) : option string :=
  match dropCI w s with
  | Some rest => Some rest
  | None =>
      match s with
      | "" => None
      | String _ s' => findClose w s'
      end
  end.

(** The input left after a block of [tag] at the start of [s]. *)
Definition blockEnd (tag s : string) : option string :=
  match dropCI ("<" +:+ tag) s with
  | Some s1 =>
      match afterGt s1 with
      | Some s2 => findClose ("</" +:+ tag +:+ ">") s2
      | None => None
      end
  | None => None
  end.

(** The number of places of [s], outside its CDATA sections, where [p]
    starts; [inside] tells whether the scan is in a CDATA section. *)
Fixpoint countOutside (p : string) (inside : bool) (s : string) : nat :=
  match s with
  | "" => 0
  | String _ s' =>
      if inside then
        if Str.startsWith "]]>" s then countOutside p false s'
        else countOutside p true s'
      else if Str.startsWith "<![CDATA[" s then countOutside p true s'
      else (if Str.startsWith p s then 1 else 0) + countOutside p false s'
  end.

(** The number of opening tags [<name>] of a document. *)
Definition elements (name doc : string) : nat :=
  countOutside (String "<" (name +:+ ">")) false doc.

(** The claim on the shape of the document, in numbers: one channel
    element, and one item element for each post that is kept. *)
Definition single_channel_document
  (posts : list Post.t) (config : Config.t) (w : World) : Prop :=
  exists doc,
    (generateRSSFeed posts config w).1 = Ok doc
    /\ elements "channel" doc = 1
    /\ elements "item" doc = length (Spec.kept posts).

(** A string in which no tag can start. *)
Definition noTag (s : string) : Prop := Str.all (notChr "<") s = true.

(** A post whose URL holds no [<] and whose description does not end its
    CDATA section itself. *)
Definition clean_post (config : Config.t) (post : Post.t) : Prop :=
  noTag (Feed.postUrl config post)
  /\ Str.includes "]]>" (cleanHtmlContent (Feed.descriptionSource post))
     = false.

(** Inputs whose values the renderer inserts as they are hold no [<], and
    whose descriptions do not end their CDATA section themselves. *)
Definition clean_input (posts : list Post.t) (config : Config.t) : Prop :=
  noTag (Config.feedUrl config)
  /\ noTag (Config.authorEmail config)
  /\ forall post, In post (Spec.kept posts) -> clean_post config post.

(** A post whose content ends the CDATA section and opens a channel. *)
Definition post_cdata_break : Post.t :=
  {| Post.id := "c1";
     Post.status := Some "confirmed";
     Post.publish_date := None;
     Post.web_url := None;
     Post.title := None;
     Post.subtitle := None;
     Post.content :=
       Some {| Post.free :=
                 Some {| Post.web :=
                           Some "]]></description></item></channel><channel><item><description><![CDATA[x" |} |} |}.

(** A configuration whose feed URL closes the channel and opens another. *)
Definition config_two_channels : Config.t :=
  {| Config.title := "News";
     Config.description := "Latest";
     Config.feedUrl :=
       "https://example.com</link></channel><channel><link>https://example.org";
     Config.authorEmail := "me@example.com" |}.

(** The source of a description when a value that is there, empty or not,
    counts as present. *)
Definition source_if_present (post : Post.t) : string :=
  match freeWeb post with
  | Some html => html
  | None =>
      match Post.subtitle post with
      | Some sub => sub
      | None => ""
      end
  end.

(** No script block and no style block is left anywhere in [s]. *)
Definition block_free (s : string) : Prop :=
  forall tag, In tag ["script"; "style"] ->
  forall a b rest, Spec.is_block tag b -> s <> a +:+ b +:+ rest.

(** The claim on the description: it is made from the first value that is
    present, and no script or style block is left in it. *)
Definition description_as_claimed (post : Post.t) : Prop :=
  Feed.descriptionSource post = source_if_present post
  /\ block_free (cleanHtmlContent (Feed.descriptionSource post)).

(** A post whose content reads as a script once its style block is gone. *)
Definition post_spliced_script : Post.t :=
  {| Post.id := "s1";
     Post.status := Some "confirmed";
     Post.publish_date := None;
     Post.web_url := None;
     Post.title := None;
     Post.subtitle := None;
     Post.content :=
       Some {| Post.free :=
                 Some {| Post.web :=
                           Some "<scr<style></style>ipt>alert(1)</script>" |} |} |}.

(** A post whose content is there but empty, with a subtitle. *)
Definition post_empty_web : Post.t :=
  {| Post.id := "s2";
     Post.status := Some "confirmed";
     Post.publish_date := None;
     Post.web_url := None;
     Post.title := None;
     Post.subtitle := Some "Sub";
     Post.content := Some {| Post.free := Some {| Post.web := Some "" |} |} |}.

(** A post whose content holds a script. *)
Definition post_with_script : Post.t :=
  {| Post.id := "p2";
     Post.status := Some "confirmed";
     Post.publish_date := Some 1700000000000%Z;
     Post.web_url := Some "https://example.com/p/2";
     Post.title := Some "Hello";
     Post.subtitle := Some "sub";
     Post.content :=
       Some {| Post.free :=
                 Some {| Post.web := Some "<p>hi</p><script>alert(1)</script>" |} |} |}.

(** ** Definitions used in the further properties *)

(** The inverse of XML escaping: an entity is read back as its character,
    any other character as itself. *)
Fixpoint unescape (s : string) : string :=
  match s with
  | "" => ""
  | String "&" (String "a" (String "m" (String "p" (String ";" rest)))) =>
      String "&" (unescape rest)
  | String "&" (String "l" (String "t" (String ";" rest))) =>
      String "<" (unescape rest)
  | String "&" (String "g" (String "t" (String ";" rest))) =>
      String ">" (unescape rest)
  | String "&" (String "q" (String "u" (String "o" (String "t" (String ";" rest))))) =>
      String dquote (unescape rest)
  | String "&" (String "#" (String "3" (String "9" (String ";" rest)))) =>
      String "'" (unescape rest)
  | String c rest => String c (unescape rest)
  end.

(** One of the five characters [escapeXml] replaces. *)
Definition isSpecial (c : ascii) : bool := Ascii.eqb c "&" || isMarkup c.

(** The word [w] occurs in [s], up to the case of letters. *)
Fixpoint occursCI (w s : string) : bool :=
  Spec.startsWithCI w s ||
  match s with
  | "" => false
  | String _ s' => occursCI w s'
  end.

(** The characters of a string. *)
Definition chars (s : string) : list ascii := String.list_ascii_of_string s.

(** A string or missing value as [||] sees it: an empty string is missing. *)
Definition truthy (a : option string) : option string :=
  match a with
  | Some s => if String.eqb s "" then None else Some s
  | None => None
  end.

(** A post with every empty string and zero date taken for missing. *)
Definition normalize (post : Post.t) : Post.t :=
  {| Post.id := Post.id post;
     Post.status := Post.status post;
     Post.publish_date :=
       match Post.publish_date post with
       | Some d => if (d =? 0)%Z then None else Some d
       | None => None
       end;
     Post.web_url := truthy (Post.web_url post);
     Post.title := truthy (Post.title post);
     Post.subtitle := truthy (Post.subtitle post);
     Post.content :=
       match truthy (freeWeb post) with
       | Some html => Some {| Post.free := Some {| Post.web := Some html |} |}
       | None => None
       end |}.

(** The configuration the handler builds from the environment. *)
Definition configOf (env : gmap string string) : Config.t :=
  {| Config.title := orElse (env !! "FEED_TITLE") "Your Newsletter";
     Config.description :=
       orElse (env !! "FEED_DESCRIPTION") "Latest posts from your newsletter";
     Config.feedUrl := orElse (env !! "FEED_URL") "https://your-site.com";
     Config.authorEmail :=
       orElse (env !! "AUTHOR_EMAIL") "your-email@domain.com" |}.

(** The headers of a feed response. *)
Definition feedHeaders : list (string * string) :=
  [("Content-Type", "application/rss+xml; charset=utf-8");
   ("Cache-Control", "public, s-maxage=3600, stale-while-revalidate=86400")].

(** The answer to a request when fetching or rendering failed. *)
Definition failure (details : string) (now : Z) : HttpResponse :=
  {| statusCode := 500;
     resHeaders := [];
     body := JsonBody
       [("error", "Failed to generate RSS feed");
        ("details", details);
        ("timestamp", JSDate.toISOString now)] |}.

(** The events of the handler up to the fetch. *)
Definition started (apiKey publicationId : string) : list Event :=
  [ConsoleLog "Fetching posts from Beehiiv API...";
   Fetch (upstreamRequest apiKey publicationId)].

(** An environment with the two required variables. *)
Definition sample_env : gmap string string :=
  {[ "BEEHIIV_API_KEY" := "key"; "BEEHIIV_PUBLICATION_ID" := "pub_1" ]}.

(** A network that is down, and upstreams that answer 200 with a body that
    is not JSON, with an object without [data], with one post. *)
Definition network_down : Network :=
  fun _ => FetchRejected "fetch failed".

Definition network_not_json : Network :=
  fun _ =>
    FetchResolved
      {| status := 200; text := "<html>";
         json := JsonRejected "Unexpected token < in JSON at position 0" |}.

Definition network_no_data : Network :=
  fun _ =>
    FetchResolved
      {| status := 200; text := "{}";
         json := JsonResolved {| ApiBody.data := None |} |}.

Definition network_one_post : Network :=
  fun _ =>
    FetchResolved
      {| status := 200; text := "{...}";
         json := JsonResolved {| ApiBody.data := Some [post_with_query] |} |}.

(** A post that is not published. *)
Definition draft_post : Post.t :=
  {| Post.id := "d1";
     Post.status := Some "draft";
     Post.publish_date := None;
     Post.web_url := None;
     Post.title := Some "Draft";
     Post.subtitle := None;
     Post.content := None |}.

(** A post with a publication date no [Date] can hold. *)
Definition post_far_future : Post.t :=
  {| Post.id := "f1";
     Post.status := Some "confirmed";
     Post.publish_date := Some 9000000000000000%Z;
     Post.web_url := None;
     Post.title := None;
     Post.subtitle := None;
     Post.content := None |}.

(** A post whose strings are there but empty and whose date is 0. *)
Definition post_all_empty : Post.t :=
  {| Post.id := "e1";
     Post.status := Some "confirmed";
     Post.publish_date := Some 0%Z;
     Post.web_url := Some "";
     Post.title := Some "";
     Post.subtitle := Some "";
     Post.content := Some {| Post.free := Some {| Post.web := Some "" |} |} |}.

(** * Properties *)

(** ** Strings *)

Module StrFacts.

Import Str.

Lemma sapp_nil_r (s : string) : s +:+ "" = s.
Proof. induction s as [|c s IH]; [reflexivity|]. cbn. by rewrite IH. Qed.

Lemma sapp_assoc (a b c : string) : (a +:+ b) +:+ c = a +:+ (b +:+ c).
Proof. induction a as [|x a IH]; [reflexivity|]. cbn. by rewrite IH. Qed.

Lemma sapp_cons (x : ascii) (a b : string) :
  String x a +:+ b = String x (a +:+ b).
Proof. reflexivity. Qed.

Lemma sapp_nil_l (s : string) : "" +:+ s = s.
Proof. reflexivity. Qed.

Lemma slength_app (a b : string) :
  String.length (a +:+ b) = String.length a + String.length b.
Proof. induction a as [|x a IH]; [reflexivity|]. cbn. by rewrite IH. Qed.

Lemma startsWith_app (p s : string) : startsWith p (p +:+ s) = true.
Proof.
  induction p as [|c p IH]; [reflexivity|]. cbn.
  by rewrite Ascii.eqb_refl.
Qed.

Lemma startsWith_inv (p s : string) :
  startsWith p s = true -> exists r, s = p +:+ r.
Proof.
  revert s. induction p as [|a p IH]; intros s H.
  - by exists s.
  - destruct s as [|b s]; [discriminate|]. cbn in H.
    destruct (Ascii.eqb a b) eqn:E; [|discriminate].
    apply Ascii.eqb_eq in E as ->.
    destruct (IH _ H) as [r ->]. by exists r.
Qed.

Lemma includes_intro (p a b : string) : includes p (a +:+ p +:+ b) = true.
Proof.
  induction a as [|c a IH].
  - cbn [String.append]. destruct (p +:+ b) eqn:E; cbn [includes];
      rewrite <- E, startsWith_app; reflexivity.
  - rewrite sapp_cons. cbn [includes]. rewrite IH. apply orb_true_r.
Qed.

Lemma includes_suffix (p a : string) : includes p (a +:+ p) = true.
Proof. rewrite <- (sapp_nil_r p) at 2. apply includes_intro. Qed.

Lemma includes_inv (p s : string) :
  includes p s = true -> exists a b, s = a +:+ p +:+ b.
Proof.
  induction s as [|c s IH]; cbn [includes]; intros H.
  - rewrite orb_false_r in H. apply startsWith_inv in H as [r ->].
    by exists "", r.
  - apply orb_true_iff in H as [H|H].
    + apply startsWith_inv in H as [r ->]. by exists "", r.
    + destruct (IH H) as (a & b & ->). by exists (String c a), b.
Qed.

Lemma join_nil : join [] = "".
Proof. reflexivity. Qed.

Lemma join_cons (x : string) (xs : list string) :
  join (x :: xs) = x +:+ join xs.
Proof.
  unfold join. destruct xs as [|y ys]; cbn.
  - by rewrite sapp_nil_r.
  - reflexivity.
Qed.

End StrFacts.

Import StrFacts.

(** ** Sample runs *)

Example escapeXml_sample :
  escapeXml ("a&b<c>" +:+ String dquote "d'") = "a&amp;b&lt;c&gt;&quot;d&#39;".
Proof. vm_compute. reflexivity. Qed.

Example clean_sample :
  cleanHtmlContent "<p>hi</p><SCRIPT type=x>alert(1)
</script ><b>x</b></Script><style>a{}</style>!" = "<p>hi</p>!".
Proof. vm_compute. reflexivity. Qed.

(** The text left by a removal is not scanned again: what remains around a
    removed block can read as a block. *)
Example clean_not_rescanned :
  cleanHtmlContent "<scr<style></style>ipt>alert(1)</script>"
  = "<script>alert(1)</script>".
Proof. vm_compute. reflexivity. Qed.

(** A block ends at the first closing tag after its opening tag. *)
Example clean_first_closing_tag :
  cleanHtmlContent "a<script>b<script>c</script>d</script>e" = "ad</script>e".
Proof. vm_compute. reflexivity. Qed.

Example toUTCString_epoch : JSDate.toUTCString 0 = "Thu, 01 Jan 1970 00:00:00 GMT".
Proof. vm_compute. reflexivity. Qed.

Example toUTCString_2023 :
  JSDate.toUTCString 1700000000000 = "Tue, 14 Nov 2023 22:13:20 GMT".
Proof. vm_compute. reflexivity. Qed.

Example toUTCString_leap :
  JSDate.toUTCString 1709251199999 = "Thu, 29 Feb 2024 23:59:59 GMT".
Proof. vm_compute. reflexivity. Qed.

Example toUTCString_before_epoch :
  JSDate.toUTCString (-1) = "Wed, 31 Dec 1969 23:59:59 GMT".
Proof. vm_compute. reflexivity. Qed.

Example toUTCString_invalid :
  JSDate.toUTCString 8640000000000001 = "Invalid Date".
Proof. vm_compute. reflexivity. Qed.

Example toISOString_2023 :
  JSDate.toISOString 1700000000123 = "2023-11-14T22:13:20.123Z".
Proof. vm_compute. reflexivity. Qed.


(** ** Global replacement of one character *)

Section ReplaceChar.

Lemma length_cons_sub (c : ascii) (s : string) :
  String.length (String c s) - String.length s = 1.
Proof. cbn [String.length]. lia. Qed.

Lemma matchAt_char (a c : ascii) (s : string) :
  matchAt (reChar a) (String c s) = if Ascii.eqb a c then Some s else None.
Proof. reflexivity. Qed.

Lemma replaceAll_char (a : ascii) (by_ s : string) :
  replaceAll (reChar a) by_ s
  = Spec.substitute (fun c => if Ascii.eqb a c then by_ else String c "") s.
Proof.
  unfold replaceAll. induction s as [|c s IH]; [reflexivity|].
  cbn [replaceFrom Spec.substitute]. rewrite matchAt_char.
  destruct (Ascii.eqb a c).
  - rewrite length_cons_sub. by rewrite IH.
  - by rewrite IH.
Qed.

Lemma substitute_app (f : ascii -> string) (a b : string) :
  Spec.substitute f (a +:+ b) = Spec.substitute f a +:+ Spec.substitute f b.
Proof.
  induction a as [|c a IH]; [reflexivity|].
  cbn [String.append Spec.substitute]. by rewrite IH, sapp_assoc.
Qed.

Lemma substitute_compose (f g : ascii -> string) (s : string) :
  Spec.substitute f (Spec.substitute g s)
  = Spec.substitute (fun c => Spec.substitute f (g c)) s.
Proof.
  induction s as [|c s IH]; [reflexivity|].
  cbn [Spec.substitute]. by rewrite substitute_app, IH.
Qed.

Lemma substitute_ext (f g : ascii -> string) (s : string) :
  (forall c, f c = g c) -> Spec.substitute f s = Spec.substitute g s.
Proof.
  intros E. induction s as [|c s IH]; [reflexivity|].
  cbn [Spec.substitute]. by rewrite E, IH.
Qed.

Lemma escapeXml_escape (s : string) : escapeXml s = Spec.escape s.
Proof.
  unfold escapeXml, Spec.escape.
  destruct (String.eqb_spec s "") as [->|_]; [reflexivity|].
  rewrite !replaceAll_char, !substitute_compose.
  apply substitute_ext.
  intros [[] [] [] [] [] [] [] []]; vm_compute; reflexivity.
Qed.

End ReplaceChar.

(** ** The rendered document *)

Section Structure.

Lemma join_app (xs ys : list string) :
  Str.join (xs ++ ys) = Str.join xs +:+ Str.join ys.
Proof.
  induction xs as [|x xs IH]; [reflexivity|].
  cbn [app]. by rewrite !join_cons, IH, sapp_assoc.
Qed.

Lemma rssItem_item (config : Config.t) (currentDate : string) (post : Post.t) :
  rssItem config currentDate post
  = Feed.item (Feed.itemChildren id config currentDate post).
Proof.
  unfold rssItem, Feed.item, Feed.elements, Feed.itemChildren.
  cbn [map]. rewrite !join_cons, join_nil. unfold Feed.element.
  cbn [fst snd id]. rewrite <- escapeXml_escape.
  fold (Feed.pubDate currentDate post). fold (Feed.postUrl config post).
  fold (Feed.descriptionSource post).
  rewrite !sapp_assoc. cbn [String.append nl]. reflexivity.
Qed.

Lemma newDate_run (w : World) : newDate w = (Ok (reading w), after_reading w).
Proof.
  unfold newDate, reading, after_reading.
  by destruct (Clock.read (clock w)).
Qed.

Lemma reading_not_before (w : World) : (Clock.now (clock w) <= reading w)%Z.
Proof.
  unfold reading, Clock.read. destruct (Clock.ticks (clock w)); cbn; lia.
Qed.

Lemma slice_0 {A} (n : nat) (xs : list A) : slice 0 n xs = firstn n xs.
Proof. unfold slice. by rewrite Nat.sub_0_r. Qed.

Lemma generateRSSFeed_run (posts : list Post.t) (config : Config.t) (w : World) :
  generateRSSFeed posts config w
  = (Ok (Feed.render id config (JSDate.toUTCString (reading w)) posts),
     after_reading w).
Proof.
  unfold generateRSSFeed, mbind, M_bind, bind, mret, M_ret, ret.
  rewrite newDate_run. f_equal. f_equal.
  unfold Feed.render, Feed.document, Spec.kept, Feed.prologue.
  rewrite slice_0, map_map.
  rewrite (map_ext _ _ (rssItem_item config (JSDate.toUTCString (reading w)))).
  generalize (Str.join
    (map (fun post =>
            Feed.item
              (Feed.itemChildren id config (JSDate.toUTCString (reading w)) post))
       (firstn 20 (List.filter isConfirmed posts)))) as items.
  intros items.
  unfold Feed.elements, Feed.channelChildren.
  cbn [map]. rewrite !join_cons, join_nil. unfold Feed.element.
  cbn [fst snd id]. rewrite <- !escapeXml_escape.
  rewrite !sapp_assoc. cbn [String.append nl q]. reflexivity.
Qed.

End Structure.

(** C3. [escapeXml] replaces ampersands first and then [<], [>], the double
    quote and the apostrophe: its result is the input with every character
    replaced exactly once by its entity ([&amp;], [&lt;], [&gt;], [&quot;],
    [&#39;]) and every other character kept, so the ampersand of an entity
    introduced for another character is never escaped again.  The channel
    title, the channel description and the title of every item stand in
    the document in this form. *)
Theorem escapeXml_no_double_escaping (s : string) :
  escapeXml s = Spec.escape s
  /\ escapeXml s
     = replaceAll (reChar "'") "&#39;"
         (replaceAll (reChar dquote) "&quot;"
           (replaceAll (reChar ">") "&gt;"
             (replaceAll (reChar "<") "&lt;"
               (replaceAll (reChar "&") "&amp;" s))))
  /\ (forall a b, Spec.escape (a +:+ b) = Spec.escape a +:+ Spec.escape b)
  /\ (forall c, Spec.escape (String c "") = Spec.entity c)
  /\ escapeXml "&<" = "&amp;&lt;"
  /\ forall posts config w,
       let d := JSDate.toUTCString (reading w) in
       exists items,
         (generateRSSFeed posts config w).1
         = Ok (Feed.document
                 (("title", Spec.escape (Config.title config))
                  :: ("link", Config.feedUrl config)
                  :: ("description", Spec.escape (Config.description config))
                  :: skipn 3 (Feed.channelChildren id config d))
                 items)
         /\ items = map (Feed.itemChildren id config d) (Spec.kept posts)
         /\ forall post,
              In ("title",
                  Spec.escape (orElse (Post.title post) "Untitled Post"))
                (Feed.itemChildren id config d post).
Proof.
  split; [apply escapeXml_escape|].
  split; [unfold escapeXml; by destruct (String.eqb_spec s "") as [->|_]|].
  split; [intros a b; apply substitute_app|].
  split; [intros c; unfold Spec.escape; cbn; apply sapp_nil_r|].
  split; [vm_compute; reflexivity|].
  intros posts config w d. eexists. rewrite generateRSSFeed_run.
  split; [reflexivity|]. split; [reflexivity|].
  intros post. cbn. tauto.
Qed.

(** ** Which posts get an item *)

Section Kept.

Lemma filter_sublist {A} (f : A -> bool) (xs : list A) :
  List.filter f xs `sublist_of` xs.
Proof.
  induction xs as [|x xs IH]; cbn [List.filter]; [constructor|].
  destruct (f x); by constructor.
Qed.

Lemma kept_sublist (posts : list Post.t) : Spec.kept posts `sublist_of` posts.
Proof.
  unfold Spec.kept. etrans; [apply sublist_take|apply filter_sublist].
Qed.

Lemma isConfirmed_status (post : Post.t) :
  isConfirmed post = true <-> Post.status post = Some "confirmed".
Proof.
  unfold isConfirmed. destruct (Post.status post) as [s|]; [|by split].
  destruct (String.eqb_spec s "confirmed") as [->|N]; split; try done.
  intros [= E]. by destruct N.
Qed.

Lemma kept_confirmed (posts : list Post.t) (post : Post.t) :
  In post (Spec.kept posts) -> Post.status post = Some "confirmed".
Proof.
  unfold Spec.kept. intros H. apply isConfirmed_status.
  assert (In post (List.filter isConfirmed posts)) as H'.
  { rewrite <- (firstn_skipn 20 (List.filter isConfirmed posts)).
    apply in_or_app. by left. }
  by apply List.filter_In in H' as [_ ?].
Qed.

Lemma kept_length (posts : list Post.t) :
  length (Spec.kept posts)
  = Nat.min 20 (length (List.filter isConfirmed posts)).
Proof. unfold Spec.kept. apply length_firstn. Qed.

Lemma kept_all (posts : list Post.t) :
  length (List.filter isConfirmed posts) <= 20 ->
  Spec.kept posts = List.filter isConfirmed posts.
Proof. unfold Spec.kept. apply firstn_all2. Qed.

End Kept.

(** C2. The renderer emits the items of the first 20 confirmed posts and of
    no others: one item per kept post, in the order of the input; a post
    whose status is not ["confirmed"] gets no item and raises no error; when
    at most 20 posts are confirmed every one of them gets its item. *)
Theorem generateRSSFeed_filter_limit
  (posts : list Post.t) (config : Config.t) (w : World) :
  let d := JSDate.toUTCString (reading w) in
  exists items : list (list (string * string)),
    (generateRSSFeed posts config w).1
    = Ok (Feed.document (Feed.channelChildren id config d) items)
    /\ items = map (Feed.itemChildren id config d) (Spec.kept posts)
    /\ Spec.kept posts `sublist_of` posts
    /\ (forall post, In post (Spec.kept posts) ->
                     Post.status post = Some "confirmed")
    /\ (exists rest, List.filter isConfirmed posts = Spec.kept posts ++ rest)
    /\ length items = Nat.min 20 (length (List.filter isConfirmed posts))
    /\ (length (List.filter isConfirmed posts) <= 20 ->
        forall post, In post posts ->
          (In post (Spec.kept posts) <-> Post.status post = Some "confirmed")).
Proof.
  intros d. eexists. rewrite generateRSSFeed_run. split; [reflexivity|].
  split; [reflexivity|]. split; [apply kept_sublist|].
  split; [apply kept_confirmed|]. split.
  { exists (skipn 20 (List.filter isConfirmed posts)).
    unfold Spec.kept. by rewrite firstn_skipn. }
  split; [by rewrite length_map, kept_length|].
  intros Hle post Hin. rewrite (kept_all _ Hle), List.filter_In.
  rewrite isConfirmed_status. tauto.
Qed.

(** ** Which values are escaped *)

Lemma all_app (P : ascii -> bool) (a b : string) :
  Str.all P (a +:+ b) = Str.all P a && Str.all P b.
Proof.
  induction a as [|c a IH]; [reflexivity|].
  cbn [String.append Str.all]. by rewrite IH, andb_assoc.
Qed.

Lemma escape_no_markup (s : string) :
  Str.all (fun c => negb (isMarkup c)) (Spec.escape s) = true.
Proof.
  unfold Spec.escape. induction s as [|c s IH]; [reflexivity|].
  cbn [Spec.substitute]. rewrite all_app, IH, andb_true_r.
  destruct c as [[] [] [] [] [] [] [] []]; vm_compute; reflexivity.
Qed.

(** C1. The renderer does not escape every value it inserts outside CDATA:
    for a confirmed post whose URL is
    [https://example.com/p/1?a=1&b=2] and whose title is [Q&A], the title
    stands escaped in the document, but link and guid hold the URL as it
    is, with its raw ampersand, and the escaped URL is nowhere in the
    document. *)
Theorem escapes_every_value_fails :
  ~ escapes_every_value [post_with_query] sample_config sample_world
  /\ exists doc,
      (generateRSSFeed [post_with_query] sample_config sample_world).1 = Ok doc
      /\ Str.includes "<link>https://example.com/p/1?a=1&b=2</link>" doc = true
      /\ Str.includes "<guid>https://example.com/p/1?a=1&b=2</guid>" doc = true
      /\ Str.includes "https://example.com/p/1?a=1&amp;b=2" doc = false
      /\ escapeXml "https://example.com/p/1?a=1&b=2"
         = "https://example.com/p/1?a=1&amp;b=2"
      /\ Str.includes "<title>Q&amp;A</title>" doc = true.
Proof.
  split.
  - unfold escapes_every_value. vm_compute. discriminate.
  - eexists. split; [vm_compute; reflexivity|].
    repeat split; vm_compute; reflexivity.
Qed.

(** Where the renderer calls [escapeXml] and where it does not: on the
    channel title, the channel description and the title of each item; the
    feed URL, managingEditor, webMaster and each item's link, guid, pubDate
    and author are inserted as they are. *)
Lemma generateRSSFeed_escaped_values
  (posts : list Post.t) (config : Config.t) (w : World) :
  let d := JSDate.toUTCString (reading w) in
  (generateRSSFeed posts config w).1 = Ok (Feed.render id config d posts)
  /\ In ("title", Spec.escape (Config.title config))
        (Feed.channelChildren id config d)
  /\ In ("description", Spec.escape (Config.description config))
        (Feed.channelChildren id config d)
  /\ In ("link", Config.feedUrl config) (Feed.channelChildren id config d)
  /\ In ("managingEditor", Config.authorEmail config)
        (Feed.channelChildren id config d)
  /\ In ("webMaster", Config.authorEmail config)
        (Feed.channelChildren id config d)
  /\ (forall post,
        Feed.itemChildren id config d post
        = [("title", Spec.escape (orElse (Post.title post) "Untitled Post"));
           ("link", Feed.postUrl config post);
           ("guid", Feed.postUrl config post);
           ("pubDate", Feed.pubDate d post);
           ("author", Config.authorEmail config);
           ("description",
            "<![CDATA[" +:+ cleanHtmlContent (Feed.descriptionSource post)
              +:+ "]]>")])
  /\ (forall s, escapeXml s = Spec.escape s
                /\ Str.all (fun c => negb (isMarkup c)) (escapeXml s) = true).
Proof.
  intros d. rewrite generateRSSFeed_run.
  split; [reflexivity|].
  do 5 (split; [cbn; tauto|]).
  split; [reflexivity|].
  intros s. rewrite escapeXml_escape. split; [reflexivity|apply escape_no_markup].
Qed.

(** ** Fallbacks of an item *)

(** C6. For every post that gets an item: without [web_url], link and guid
    are both [{feedUrl}/post/{id}]; without [publish_date], pubDate is the
    date the renderer read from the clock when it started, which is not
    before the time of the call; without [title], the title is
    ["Untitled Post"]. *)
Theorem rssItem_fallbacks
  (posts : list Post.t) (config : Config.t) (w : World) (post : Post.t)
  (Hkept : In post (Spec.kept posts)) :
  let d := JSDate.toUTCString (reading w) in
  exists items,
    (generateRSSFeed posts config w).1
    = Ok (Feed.document (Feed.channelChildren id config d) items)
    /\ In (Feed.itemChildren id config d post) items
    /\ (Clock.now (clock w) <= reading w)%Z
    /\ (Post.web_url post = None ->
        let fallback := Config.feedUrl config +:+ "/post/" +:+ Post.id post in
        In ("link", fallback) (Feed.itemChildren id config d post)
        /\ In ("guid", fallback) (Feed.itemChildren id config d post))
    /\ (Post.publish_date post = None ->
        In ("pubDate", d) (Feed.itemChildren id config d post)
        /\ In ("lastBuildDate", d) (Feed.channelChildren id config d))
    /\ (Post.title post = None ->
        In ("title", "Untitled Post") (Feed.itemChildren id config d post)
        /\ escapeXml "Untitled Post" = "Untitled Post").
Proof.
  intros d. eexists. rewrite generateRSSFeed_run.
  split; [reflexivity|].
  split; [by apply in_map|].
  split; [apply reading_not_before|].
  unfold Feed.itemChildren, Feed.postUrl, Feed.pubDate.
  split; [intros ->; cbn; tauto|].
  split; [intros ->; cbn; tauto|].
  intros ->. cbn. tauto.
Qed.

Lemma rssItem_fallbacks_witness :
  In bare_post (Spec.kept [bare_post])
  /\ exists items,
      (generateRSSFeed [bare_post] sample_config sample_world).1
      = Ok (Feed.document
              (Feed.channelChildren id sample_config
                 "Tue, 14 Nov 2023 22:13:20 GMT") items)
      /\ In [("title", "Untitled Post");
             ("link", "https://example.com/post/42");
             ("guid", "https://example.com/post/42");
             ("pubDate", "Tue, 14 Nov 2023 22:13:20 GMT");
             ("author", "me@example.com");
             ("description", "<![CDATA[]]>")] items.
Proof.
  assert (In bare_post (Spec.kept [bare_post])) as Hkept by (cbn; tauto).
  split; [exact Hkept|].
  destruct (rssItem_fallbacks [bare_post] sample_config sample_world
              bare_post Hkept) as (items & Hdoc & Hin & _).
  exists items. split; [exact Hdoc|exact Hin].
Defined.

(** ** The handler *)

Section Handler.

Context (net : Network) (env : gmap string string) (w : World).

Lemma handler_falsy_config :
  falsy (env !! "BEEHIIV_API_KEY") || falsy (env !! "BEEHIIV_PUBLICATION_ID")
  = true ->
  handler net env w = (Ok configError, w).
Proof. intros H. unfold handler. by rewrite H. Qed.

Lemma falsy_Some (s : string) : s <> "" -> falsy (Some s) = false.
Proof. intros N. cbn. by apply String.eqb_neq. Qed.

Lemma handler_upstream_not_ok (apiKey publicationId : string)
  (r : UpstreamResponse) :
  env !! "BEEHIIV_API_KEY" = Some apiKey -> apiKey <> "" ->
  env !! "BEEHIIV_PUBLICATION_ID" = Some publicationId -> publicationId <> "" ->
  net (upstreamRequest apiKey publicationId) = FetchResolved r ->
  ok r = false ->
  let details :=
    "Beehiiv API responded with status: " +:+ JSDate.decimal (status r)
      +:+ " - " +:+ text r in
  handler net env w
  = (Ok {| statusCode := 500;
           resHeaders := [];
           body := JsonBody
             [("error", "Failed to generate RSS feed");
              ("details", details);
              ("timestamp", JSDate.toISOString (reading w))] |},
     {| clock := (Clock.read (clock w)).2;
        trace := trace w
          ++ [ConsoleLog "Fetching posts from Beehiiv API...";
              Fetch (upstreamRequest apiKey publicationId);
              ConsoleError ("Beehiiv API Error: " +:+ text r);
              ConsoleErrorObject "Error generating RSS feed:" details] |}).
Proof.
  intros Hk Nk Hp Np Hnet Hok details. unfold handler.
  rewrite Hk, Hp, (falsy_Some _ Nk), (falsy_Some _ Np).
  cbv [orb str default from_option id tryCatch mbind M_bind bind fetch
       consoleLog consoleError consoleErrorObject emit mret M_ret ret throw].
  fold (upstreamRequest apiKey publicationId). rewrite Hnet, Hok.
  cbv [negb newDate]. cbn [clock trace]. unfold reading.
  destruct (Clock.read (clock w)) as [n c]. cbn [fst snd].
  rewrite <- !(assoc_L (++)). reflexivity.
Qed.

Lemma handler_upstream_ok (apiKey publicationId : string)
  (r : UpstreamResponse) (b : ApiBody.t) :
  env !! "BEEHIIV_API_KEY" = Some apiKey -> apiKey <> "" ->
  env !! "BEEHIIV_PUBLICATION_ID" = Some publicationId -> publicationId <> "" ->
  net (upstreamRequest apiKey publicationId) = FetchResolved r ->
  ok r = true -> json r = JsonResolved b ->
  let posts := default [] (ApiBody.data b) in
  let config :=
    {| Config.title := orElse (env !! "FEED_TITLE") "Your Newsletter";
       Config.description :=
         orElse (env !! "FEED_DESCRIPTION") "Latest posts from your newsletter";
       Config.feedUrl := orElse (env !! "FEED_URL") "https://your-site.com";
       Config.authorEmail :=
         orElse (env !! "AUTHOR_EMAIL") "your-email@domain.com" |} in
  handler net env w
  = (Ok {| statusCode := 200;
           resHeaders :=
             [("Content-Type", "application/rss+xml; charset=utf-8");
              ("Cache-Control",
               "public, s-maxage=3600, stale-while-revalidate=86400")];
           body := TextBody
             (Feed.render id config (JSDate.toUTCString (reading w)) posts) |},
     {| clock := (Clock.read (clock w)).2;
        trace := trace w
          ++ [ConsoleLog "Fetching posts from Beehiiv API...";
              Fetch (upstreamRequest apiKey publicationId);
              ConsoleLog ("Successfully fetched "
                            +:+ JSDate.decimal (Z.of_nat (length posts))
                            +:+ " posts")] |}).
Proof.
  intros Hk Nk Hp Np Hnet Hok Hjson posts config. unfold handler.
  rewrite Hk, Hp, (falsy_Some _ Nk), (falsy_Some _ Np).
  cbv [orb str default from_option id tryCatch mbind M_bind bind fetch
       consoleLog consoleError consoleErrorObject emit mret M_ret ret throw readJson].
  fold (upstreamRequest apiKey publicationId). rewrite Hnet, Hok, Hjson.
  cbv [negb]. cbn [clock trace].
  fold posts. fold config. rewrite generateRSSFeed_run.
  unfold after_reading, reading. cbn [clock trace].
  rewrite <- !(assoc_L (++)). reflexivity.
Qed.

End Handler.

(** C4. If [BEEHIIV_API_KEY] or [BEEHIIV_PUBLICATION_ID] is absent, the
    handler answers 500 with a JSON body of exactly the two fields [error]
    and [details], the details naming both variables; the world is left as
    it was, so nothing is fetched, whatever the network would answer. *)
Theorem handler_missing_config
  (net : Network) (env : gmap string string) (w : World)
  (Habsent : env !! "BEEHIIV_API_KEY" = None
             \/ env !! "BEEHIIV_PUBLICATION_ID" = None) :
  exists error details,
    handler net env w
    = (Ok {| statusCode := 500;
             resHeaders := [];
             body := JsonBody [("error", error); ("details", details)] |}, w)
    /\ Str.includes "BEEHIIV_API_KEY" details = true
    /\ Str.includes "BEEHIIV_PUBLICATION_ID" details = true
    /\ fetches (trace (handler net env w).2) = fetches (trace w)
    /\ forall net', handler net' env w = handler net env w.
Proof.
  assert (falsy (env !! "BEEHIIV_API_KEY")
          || falsy (env !! "BEEHIIV_PUBLICATION_ID") = true) as F.
  { destruct Habsent as [-> | ->]; [reflexivity|apply orb_true_r]. }
  do 2 eexists. rewrite !(handler_falsy_config _ _ _ F).
  split; [reflexivity|]. split; [vm_compute; reflexivity|].
  split; [vm_compute; reflexivity|]. split; [reflexivity|].
  intros net'. by rewrite (handler_falsy_config net' _ _ F).
Qed.

Lemma handler_missing_config_witness :
  let env : gmap string string := {[ "BEEHIIV_PUBLICATION_ID" := "pub_1" ]} in
  (env !! "BEEHIIV_API_KEY" = None \/ env !! "BEEHIIV_PUBLICATION_ID" = None)
  /\ exists error details,
      handler failing_network env sample_world
      = (Ok {| statusCode := 500;
               resHeaders := [];
               body := JsonBody [("error", error); ("details", details)] |},
         sample_world).
Proof.
  intros env.
  assert (env !! "BEEHIIV_API_KEY" = None
          \/ env !! "BEEHIIV_PUBLICATION_ID" = None) as H
    by (left; reflexivity).
  split; [exact H|].
  destruct (handler_missing_config failing_network env sample_world H)
    as (error & details & Hrun & _).
  by exists error, details.
Defined.

(** C10. A required variable set to the empty string counts as absent: the
    handler gives the same 500 answer as for a missing variable and fetches
    nothing. *)
Theorem handler_empty_config
  (net : Network) (env : gmap string string) (w : World)
  (Hempty : env !! "BEEHIIV_API_KEY" = Some ""
            \/ env !! "BEEHIIV_PUBLICATION_ID" = Some "") :
  handler net env w = (Ok configError, w)
  /\ handler net env w
     = handler net (delete "BEEHIIV_PUBLICATION_ID"
                      (delete "BEEHIIV_API_KEY" env)) w
  /\ fetches (trace (handler net env w).2) = fetches (trace w).
Proof.
  assert (falsy (env !! "BEEHIIV_API_KEY")
          || falsy (env !! "BEEHIIV_PUBLICATION_ID") = true) as F.
  { destruct Hempty as [-> | ->]; [reflexivity|apply orb_true_r]. }
  rewrite !(handler_falsy_config _ _ _ F).
  split; [reflexivity|]. split; [|reflexivity].
  symmetry. apply handler_falsy_config.
  by rewrite lookup_delete_ne, lookup_delete_eq.
Qed.

Lemma handler_empty_config_witness :
  let env : gmap string string :=
    {[ "BEEHIIV_API_KEY" := ""; "BEEHIIV_PUBLICATION_ID" := "pub_1" ]} in
  (env !! "BEEHIIV_API_KEY" = Some "" \/ env !! "BEEHIIV_PUBLICATION_ID" = Some "")
  /\ handler failing_network env sample_world = (Ok configError, sample_world).
Proof.
  intros env.
  assert (env !! "BEEHIIV_API_KEY" = Some ""
          \/ env !! "BEEHIIV_PUBLICATION_ID" = Some "") as H
    by (left; reflexivity).
  split; [exact H|].
  exact (proj1 (handler_empty_config failing_network env sample_world H)).
Defined.

(** C5. When both variables are set and the upstream answers with a status
    outside 200..299, the handler reads the body as text and answers 500
    with the JSON fields [error] (["Failed to generate RSS feed"]),
    [details] and [timestamp]; the details hold the decimal status code and
    the body text; the request is sent once and not again. *)
Theorem handler_upstream_failure
  (net : Network) (env : gmap string string) (w : World)
  (apiKey publicationId : string) (r : UpstreamResponse)
  (Hkey : env !! "BEEHIIV_API_KEY" = Some apiKey) (Nkey : apiKey <> "")
  (Hpub : env !! "BEEHIIV_PUBLICATION_ID" = Some publicationId)
  (Npub : publicationId <> "")
  (Hnet : net (upstreamRequest apiKey publicationId) = FetchResolved r)
  (Hstatus : (status r < 200 \/ 299 < status r)%Z) :
  exists details timestamp w',
    handler net env w
    = (Ok {| statusCode := 500;
             resHeaders := [];
             body := JsonBody
               [("error", "Failed to generate RSS feed");
                ("details", details);
                ("timestamp", timestamp)] |}, w')
    /\ Str.includes (JSDate.decimal (status r)) details = true
    /\ Str.includes (text r) details = true
    /\ timestamp = JSDate.toISOString (reading w)
    /\ fetches (trace w')
       = fetches (trace w) ++ [upstreamRequest apiKey publicationId]
    /\ In (ConsoleError ("Beehiiv API Error: " +:+ text r)) (trace w').
Proof.
  assert (ok r = false) as Hok.
  { unfold ok. apply andb_false_iff.
    destruct Hstatus; [left|right]; apply Z.leb_gt; lia. }
  do 3 eexists.
  rewrite (handler_upstream_not_ok net env w apiKey publicationId r
             Hkey Nkey Hpub Npub Hnet Hok).
  split; [reflexivity|].
  split; [apply includes_intro|].
  split.
  { rewrite <- !sapp_assoc. apply includes_suffix. }
  split; [reflexivity|]. cbn [trace]. split.
  - unfold fetches. by rewrite omap_app.
  - apply in_or_app. right. cbn. tauto.
Qed.

Lemma handler_upstream_failure_witness :
  let env : gmap string string :=
    {[ "BEEHIIV_API_KEY" := "key"; "BEEHIIV_PUBLICATION_ID" := "pub_1" ]} in
  exists details timestamp w',
    handler failing_network env sample_world
    = (Ok {| statusCode := 500;
             resHeaders := [];
             body := JsonBody
               [("error", "Failed to generate RSS feed");
                ("details", details);
                ("timestamp", timestamp)] |}, w')
    /\ Str.includes "503" details = true
    /\ Str.includes "rate limited" details = true.
Proof.
  intros env.
  assert (env !! "BEEHIIV_API_KEY" = Some "key") as Hkey by reflexivity.
  assert (env !! "BEEHIIV_PUBLICATION_ID" = Some "pub_1") as Hpub by reflexivity.
  assert ("key" <> "") as Nkey by discriminate.
  assert ("pub_1" <> "") as Npub by discriminate.
  assert ((503 < 200 \/ 299 < 503)%Z) as Hstatus by (right; reflexivity).
  destruct (handler_upstream_failure failing_network env sample_world
              "key" "pub_1"
              {| status := 503; text := "rate limited";
                 json := JsonRejected "not JSON" |}
              Hkey Nkey Hpub Npub eq_refl Hstatus)
    as (details & timestamp & w' & Hrun & Hcode & Htext & _).
  exists details, timestamp, w'. by repeat split.
Defined.

(** ** Where the current time shows in the document *)

Section Window.

Lemma get_app_l (a b : string) (i : nat) :
  i < String.length a -> String.get i (a +:+ b) = String.get i a.
Proof.
  revert i. induction a as [|c a IH]; intros i H; cbn in H; [lia|].
  destruct i as [|i]; [reflexivity|]. cbn. apply IH. lia.
Qed.

Lemma get_app_r (a b : string) (i : nat) :
  String.length a <= i ->
  String.get i (a +:+ b) = String.get (i - String.length a) b.
Proof.
  revert i. induction a as [|c a IH]; intros i H; cbn in H.
  - cbn. by rewrite Nat.sub_0_r.
  - destruct i as [|i]; [lia|]. cbn. apply IH. lia.
Qed.

Lemma Ok_inj {A} (x y : A) : Ok x = Ok y -> x = y.
Proof. congruence. Qed.

(** Two strings that differ in a middle part of the same length agree at
    every position outside it. *)
Lemma get_outside_window (a m1 m2 b : string) (i : nat) :
  String.length m1 = String.length m2 ->
  i < String.length a \/ String.length a + String.length m1 <= i ->
  String.get i (a +:+ m1 +:+ b) = String.get i (a +:+ m2 +:+ b).
Proof.
  intros L [H|H].
  - by rewrite !get_app_l.
  - rewrite !(get_app_r a) by lia. rewrite !get_app_r by lia. by rewrite L.
Qed.

End Window.

(** C9, as stated, fails: a post without a publication date takes the time
    of the call as its pubDate, so two documents rendered a second apart
    differ at two places more than a date apart. *)
Lemma only_lastBuildDate_varies_fails :
  ~ only_lastBuildDate_varies [bare_post] sample_config.
Proof.
  intros (pre & suf & H).
  pose proof (H (world_at 1700000000000)) as H1.
  pose proof (H (world_at 1700000001000)) as H2.
  rewrite generateRSSFeed_run in H1, H2. cbn [fst] in H1, H2.
  apply Ok_inj in H1, H2.
  rewrite <- sapp_assoc in H1, H2.
  set (a := pre +:+ "<lastBuildDate>") in *.
  set (b := "</lastBuildDate>" +:+ suf) in *.
  set (d1 := JSDate.toUTCString (reading (world_at 1700000000000))) in *.
  set (d2 := JSDate.toUTCString (reading (world_at 1700000001000))) in *.
  assert (String.length d1 = 29 /\ String.length d2 = 29) as [L1 L2]
    by (split; vm_compute; reflexivity).
  assert (forall i,
            String.get i (Feed.render id sample_config d1 [bare_post])
            <> String.get i (Feed.render id sample_config d2 [bare_post]) ->
            String.length a <= i < String.length a + 29) as W.
  { intros i N. rewrite H1, H2 in N.
    destruct (decide (i < String.length a
                      \/ String.length a + String.length d1 <= i)) as [O|O].
    - destruct N. apply get_outside_window; [congruence|exact O].
    - lia. }
  assert (String.length a <= 345 < String.length a + 29) as W1
    by (apply W; vm_compute; discriminate).
  assert (String.length a <= 722 < String.length a + 29) as W2
    by (apply W; vm_compute; discriminate).
  lia.
Qed.

Section TimeDependence.

Context (config : Config.t).

Lemma pubDate_dated (d1 d2 : string) (post : Post.t) :
  dated post -> Feed.pubDate d1 post = Feed.pubDate d2 post.
Proof.
  intros (d & E & N). unfold Feed.pubDate. rewrite E.
  by destruct (Z.eqb_spec d 0).
Qed.

Lemma itemChildren_dated (d1 d2 : string) (post : Post.t) :
  dated post ->
  Feed.itemChildren id config d1 post = Feed.itemChildren id config d2 post.
Proof.
  intros D. unfold Feed.itemChildren. by rewrite (pubDate_dated d1 d2 post D).
Qed.

Lemma document_around_lastBuildDate
  (d : string) (items : list (list (string * string))) :
  Feed.document (Feed.channelChildren id config d) items
  = (Feed.prologue +:+ nl +:+ "  <channel>"
       +:+ Feed.elements "    " (firstn 4 (Feed.channelChildren id config ""))
       +:+ nl +:+ "    ")
    +:+ "<lastBuildDate>" +:+ d +:+ "</lastBuildDate>"
    +:+ (Feed.elements "    " (skipn 5 (Feed.channelChildren id config ""))
           +:+ Str.join (map Feed.item items)
           +:+ nl +:+ "  </channel>" +:+ nl +:+ "</rss>").
Proof.
  unfold Feed.document, Feed.elements, Feed.channelChildren.
  cbn [map firstn skipn]. rewrite !join_cons, !join_nil. unfold Feed.element.
  cbn [fst snd id]. rewrite !sapp_assoc. cbn [String.append nl]. reflexivity.
Qed.

Lemma pubDate_publishTime (d : string) (post : Post.t) :
  Feed.pubDate d post
  = match publishTime post with
    | Some t => JSDate.toUTCString t
    | None => d
    end.
Proof.
  unfold Feed.pubDate, publishTime.
  destruct (Post.publish_date post) as [t|]; [|reflexivity].
  by destruct (t =? 0)%Z.
Qed.

Lemma item_around_pubDate (d : string) (post : Post.t) :
  Feed.item (Feed.itemChildren id config d post)
  = itemBefore config post +:+ "<pubDate>"
      +:+ match publishTime post with
          | Some t => JSDate.toUTCString t
          | None => d
          end
      +:+ "</pubDate>" +:+ itemAfter config post.
Proof.
  rewrite <- pubDate_publishTime.
  unfold itemBefore, itemAfter, Feed.item, Feed.elements, Feed.itemChildren.
  cbn [map firstn skipn]. rewrite !join_cons, !join_nil. unfold Feed.element.
  cbn [fst snd id]. rewrite !sapp_assoc. cbn [String.append nl]. reflexivity.
Qed.

End TimeDependence.

(** C9, amended. The document is a function of the posts, the configuration
    and the time read from the clock.  The time shows at lastBuildDate and
    at the pubDate of every item whose post has no publication date (none,
    or the date 0), and nowhere else: all the text around these places is
    the same at every time.  When every kept post is dated, the documents
    of two calls differ in lastBuildDate only. *)
Theorem generateRSSFeed_time_dependence
  (posts : list Post.t) (config : Config.t) :
  (forall w1 w2, reading w1 = reading w2 ->
     (generateRSSFeed posts config w1).1 = (generateRSSFeed posts config w2).1)
  /\ (exists (pre mid tail : string) (before after : Post.t -> string),
        forall w,
          let d := JSDate.toUTCString (reading w) in
          (generateRSSFeed posts config w).1
          = Ok (pre +:+ "<lastBuildDate>" +:+ d +:+ "</lastBuildDate>" +:+ mid
                  +:+ Str.join
                        (map (fun post =>
                                before post +:+ "<pubDate>"
                                  +:+ match publishTime post with
                                      | Some t => JSDate.toUTCString t
                                      | None => d
                                      end
                                  +:+ "</pubDate>" +:+ after post)
                           (Spec.kept posts))
                  +:+ tail))
  /\ ((forall post, In post (Spec.kept posts) -> dated post) ->
      only_lastBuildDate_varies posts config).
Proof.
  split.
  { intros w1 w2 E. rewrite !generateRSSFeed_run. cbn [fst]. by rewrite E. }
  split.
  { exists (Feed.prologue +:+ nl +:+ "  <channel>"
              +:+ Feed.elements "    "
                    (firstn 4 (Feed.channelChildren id config ""))
              +:+ nl +:+ "    "),
      (Feed.elements "    " (skipn 5 (Feed.channelChildren id config ""))),
      (nl +:+ "  </channel>" +:+ nl +:+ "</rss>"),
      (itemBefore config), (itemAfter config).
    intros w d.
    rewrite generateRSSFeed_run. cbn [fst]. f_equal. unfold Feed.render.
    rewrite document_around_lastBuildDate, map_map.
    rewrite (map_ext _ _ (item_around_pubDate config d)).
    reflexivity. }
  intros D. eexists _, _. intros w. rewrite generateRSSFeed_run. cbn [fst].
  f_equal. unfold Feed.render.
  rewrite (map_ext_in _ (Feed.itemChildren id config "")).
  - apply document_around_lastBuildDate.
  - intros post Hin. apply itemChildren_dated. by apply D.
Qed.

Lemma generateRSSFeed_time_dependence_witness :
  (forall post, In post (Spec.kept [post_with_query]) -> dated post)
  /\ only_lastBuildDate_varies [post_with_query] sample_config.
Proof.
  assert (forall post, In post (Spec.kept [post_with_query]) -> dated post) as D.
  { intros post [<-|[]]. exists 1700000000000%Z. split; [reflexivity|discriminate]. }
  split; [exact D|].
  exact (proj2 (proj2
    (generateRSSFeed_time_dependence [post_with_query] sample_config)) D).
Defined.

(** ** Removal of script and style blocks *)

Section BlockMatching.

Lemma matchAt_word (w : string) (r : regex) (s : string) :
  matchAt (word litCI w ++ r) s
  = match dropCI w s with
    | Some s' => matchAt r s'
    | None => None
    end.
Proof.
  revert s. induction w as [|a w IH]; intros s; [reflexivity|].
  cbn [word app matchAt dropCI]. destruct s as [|b s]; [reflexivity|].
  destruct (litCI a b); [apply IH|reflexivity].
Qed.

Lemma matchAt_word_only (w s : string) : matchAt (word litCI w) s = dropCI w s.
Proof.
  rewrite <- (app_nil_r (word litCI w)), matchAt_word.
  by destruct (dropCI w s).
Qed.

Lemma matchAt_tag_end (r : regex) (s : string) :
  matchAt (StarGreedy (notChr ">") :: Chr (lit ">") :: r) s
  = match afterGt s with
    | Some s' => matchAt r s'
    | None => None
    end.
Proof.
  cbn [matchAt]. induction s as [|c s IH]; [reflexivity|].
  cbn [starGreedy afterGt]. unfold notChr, lit in *.
  destruct (Ascii.eqb ">" c); cbn [negb]; [reflexivity|].
  rewrite IH. by destruct (afterGt s) as [s'|]; [destruct (matchAt r s')|].
Qed.

Lemma starLazy_any (w s : string) :
  starLazy anyChr (matchAt (word litCI w)) s = findClose w s.
Proof.
  induction s as [|c s IH]; cbn [starLazy findClose];
    rewrite matchAt_word_only; [by destruct (dropCI w "")|].
  destruct (dropCI w (String c s)); [reflexivity|]. apply IH.
Qed.

Lemma matchAt_reBlock (tag s : string) :
  matchAt (reBlock tag) s = blockEnd tag s.
Proof.
  unfold reBlock, blockEnd. rewrite matchAt_word.
  destruct (dropCI ("<" +:+ tag) s) as [s1|]; [|reflexivity].
  cbn [app]. rewrite matchAt_tag_end.
  destruct (afterGt s1) as [s2|]; [|reflexivity].
  cbn [matchAt]. apply starLazy_any.
Qed.

Lemma eqCI_length (w o : string) :
  Spec.eqCI w o = true -> String.length o = String.length w.
Proof.
  revert o. induction w as [|a w IH]; intros [|b o] H; try done.
  cbn in H. apply andb_true_iff in H as [_ H]. cbn. by rewrite (IH _ H).
Qed.

Lemma dropCI_Some (w s rest : string) :
  dropCI w s = Some rest
  <-> exists o, s = o +:+ rest /\ Spec.eqCI w o = true.
Proof.
  revert s. induction w as [|a w IH]; intros s; cbn [dropCI].
  - split.
    + intros [= ->]. by exists "".
    + intros ([|b o] & -> & H); [reflexivity|discriminate].
  - destruct s as [|b s].
    + split; [discriminate|].
      intros ([|b o] & E & H); [discriminate|discriminate].
    + split.
      * destruct (litCI a b) eqn:L; [|discriminate].
        intros (o & -> & H)%IH. exists (String b o). split; [reflexivity|].
        cbn. by rewrite L.
      * intros ([|b' o] & E & H); [discriminate|].
        cbn in E. injection E as -> ->. cbn in H.
        apply andb_true_iff in H as [-> H]. apply IH. by exists o.
Qed.

Lemma dropCI_startsWithCI (w s : string) :
  dropCI w s = None <-> Spec.startsWithCI w s = false.
Proof.
  revert s. induction w as [|a w IH]; intros s; cbn; [done|].
  destruct s as [|b s]; [done|]. destruct (litCI a b); cbn; [apply IH|done].
Qed.

Lemma startsWithCI_app (w x t : string) :
  String.length w <= String.length x ->
  Spec.startsWithCI w (x +:+ t) = Spec.startsWithCI w x.
Proof.
  revert x. induction w as [|a w IH]; intros x H; [reflexivity|].
  destruct x as [|b x]; cbn in H; [lia|].
  cbn. destruct (litCI a b); cbn; [apply IH; lia|reflexivity].
Qed.

Lemma afterGt_Some (s rest : string) :
  afterGt s = Some rest
  <-> exists attrs,
       s = attrs +:+ ">" +:+ rest /\ Str.all (notChr ">") attrs = true.
Proof.
  induction s as [|c s IH]; cbn [afterGt].
  - split; [discriminate|]. by intros ([|? ?] & ? & ?).
  - destruct (Ascii.eqb_spec ">" c) as [<-|N].
    + split.
      * intros [= ->]. by exists "".
      * intros ([|b attrs] & E & H); by simplify_eq/=.
    + rewrite IH. split.
      * intros (attrs & -> & H). exists (String c attrs). split; [reflexivity|].
        cbn. unfold notChr at 1. by rewrite (proj2 (Ascii.eqb_neq _ _) N).
      * intros ([|b attrs] & E & H); simplify_eq/=; try done.
        apply andb_true_iff in H as [_ H]. by exists attrs.
Qed.

Lemma findClose_Some (w s rest : string) :
  findClose w s = Some rest
  <-> exists body closing,
       s = body +:+ closing +:+ rest
       /\ Spec.eqCI w closing = true
       /\ forall body1 body2,
            body = body1 +:+ body2 -> body2 <> "" ->
            Spec.startsWithCI w (body2 +:+ closing) = false.
Proof.
  split.
  - induction s as [|c s IH]; cbn [findClose];
      destruct (dropCI w _) as [rest'|] eqn:D.
    + intros [= ->]. apply dropCI_Some in D as (o & E & H).
      exists "", o. split; [exact E|]. split; [exact H|].
      by intros [|? ?] [|? ?].
    + discriminate.
    + intros [= ->]. apply dropCI_Some in D as (o & E & H).
      exists "", o. split; [exact E|]. split; [exact H|].
      by intros [|? ?] [|? ?].
    + intros (body & closing & -> & H & F)%IH.
      exists (String c body), closing. split; [reflexivity|].
      split; [exact H|]. intros [|b body1] body2 E N.
      * cbn in E. subst body2. apply dropCI_startsWithCI in D.
        rewrite <- D. rewrite <- sapp_cons, <- sapp_assoc.
        symmetry. apply startsWithCI_app.
        rewrite slength_app, (eqCI_length _ _ H). lia.
      * simplify_eq/=. by apply (F body1).
  - intros (body & closing & -> & H & F). induction body as [|c body IH].
    + cbn [String.append]. destruct (closing +:+ rest) eqn:E; cbn [findClose];
        rewrite <- E, (proj2 (dropCI_Some w (closing +:+ rest) rest));
        eauto.
    + rewrite sapp_cons. cbn [findClose].
      rewrite (proj2 (dropCI_startsWithCI w _)).
      * apply IH. intros body1 body2 -> N. by apply (F (String c body1)).
      * rewrite <- sapp_cons, <- sapp_assoc, startsWithCI_app.
        -- by apply (F "").
        -- rewrite slength_app, (eqCI_length _ _ H). lia.
Qed.

Lemma blockEnd_Some (tag s rest : string) :
  blockEnd tag s = Some rest
  <-> exists b, Spec.is_block tag b /\ s = b +:+ rest.
Proof.
  unfold blockEnd. split.
  - destruct (dropCI _ s) as [s1|] eqn:D; [|discriminate].
    destruct (afterGt s1) as [s2|] eqn:G; [|discriminate].
    intros (body & closing & -> & Hc & F)%findClose_Some.
    apply afterGt_Some in G as (attrs & -> & Ha).
    apply dropCI_Some in D as (o & -> & Ho).
    exists (o +:+ attrs +:+ ">" +:+ body +:+ closing). split.
    + by exists o, attrs, body, closing.
    + by rewrite !sapp_assoc.
  - intros (b & (o & attrs & body & closing & -> & Ho & Ha & Hc & F) & ->).
    rewrite !sapp_assoc.
    rewrite (proj2 (dropCI_Some _ _ _)) by eauto.
    rewrite (proj2 (afterGt_Some _ _)) by eauto.
    apply findClose_Some. eauto 10.
Qed.

Lemma is_block_nonempty (tag b : string) : Spec.is_block tag b -> b <> "".
Proof.
  intros (o & attrs & body & closing & -> & Ho & _).
  destruct o as [|c o]; [discriminate|]. discriminate.
Qed.

End BlockMatching.

Section ReplaceBlocks.

Context (r : regex) (by_ : string).

Lemma replaceFrom_skip (b rest : string) :
  replaceFrom r by_ (String.length b) (b +:+ rest) = replaceFrom r by_ 0 rest.
Proof.
  induction b as [|c b IH]; [reflexivity|].
  cbn [String.length String.append replaceFrom]. exact IH.
Qed.

Lemma replaceAll_match (b rest : string) :
  b <> "" -> matchAt r (b +:+ rest) = Some rest ->
  replaceAll r by_ (b +:+ rest) = by_ +:+ replaceAll r by_ rest.
Proof.
  intros N H. unfold replaceAll. destruct b as [|c b]; [done|].
  rewrite sapp_cons. cbn [replaceFrom]. rewrite <- sapp_cons, H.
  rewrite slength_app. cbn [String.length].
  replace (S (String.length b) + String.length rest - String.length rest)
    with (S (String.length b)) by lia.
  by rewrite replaceFrom_skip.
Qed.

Lemma replaceAll_no_match (c : ascii) (s : string) :
  matchAt r (String c s) = None ->
  replaceAll r by_ (String c s) = String c (replaceAll r by_ s).
Proof. intros H. unfold replaceAll. cbn [replaceFrom]. by rewrite H. Qed.

End ReplaceBlocks.

Section Strips.

Context (tag : string).

Lemma replaceAll_block (b rest : string) :
  Spec.is_block tag b ->
  replaceAll (reBlock tag) "" (b +:+ rest) = replaceAll (reBlock tag) "" rest.
Proof.
  intros B. rewrite replaceAll_match; [reflexivity|by eapply is_block_nonempty|].
  rewrite matchAt_reBlock. apply blockEnd_Some. by exists b.
Qed.

Lemma replaceAll_not_block (c : ascii) (s : string) :
  (forall b rest, Spec.is_block tag b -> String c s <> b +:+ rest) ->
  replaceAll (reBlock tag) "" (String c s)
  = String c (replaceAll (reBlock tag) "" s).
Proof.
  intros N. apply replaceAll_no_match. rewrite matchAt_reBlock.
  destruct (blockEnd tag (String c s)) as [rest|] eqn:E; [|reflexivity].
  apply blockEnd_Some in E as (b & B & E). by destruct (N b rest B).
Qed.

(** The global replacement removes the blocks, read from left to right. *)
Lemma strips_replaceAll (s : string) :
  Spec.strips tag s (replaceAll (reBlock tag) "" s).
Proof.
  remember (String.length s) as n eqn:L.
  revert s L. induction (lt_wf n) as [n _ IH]. intros s ->.
  destruct s as [|c s]; [constructor|].
  destruct (blockEnd tag (String c s)) as [rest|] eqn:E.
  - apply blockEnd_Some in E as (b & B & E). rewrite E.
    rewrite (replaceAll_block _ _ B). constructor; [exact B|].
    apply (IH (String.length rest)); [|reflexivity].
    rewrite E, slength_app.
    pose proof (is_block_nonempty _ _ B). destruct b; [done|]. cbn. lia.
  - assert (forall b rest, Spec.is_block tag b -> String c s <> b +:+ rest) as N.
    { intros b rest B E'.
      assert (blockEnd tag (String c s) = Some rest) as E''
        by (apply blockEnd_Some; eauto).
      congruence. }
    rewrite (replaceAll_not_block _ _ N). constructor; [exact N|].
    apply (IH (String.length s)); [cbn; lia|reflexivity].
Qed.

(** And it is the only result of doing so. *)
Lemma strips_unique (s out : string) :
  Spec.strips tag s out -> out = replaceAll (reBlock tag) "" s.
Proof.
  induction 1 as [|b rest out B _ IH|c s out N _ IH].
  - reflexivity.
  - by rewrite (replaceAll_block _ _ B).
  - by rewrite (replaceAll_not_block _ _ N), IH.
Qed.

End Strips.

(** * Further properties *)

(** ** The paths of the handler *)

Section HandlerPaths.

Context (net : Network) (env : gmap string string) (w : World).
Context (apiKey publicationId : string).
Context (Hkey : env !! "BEEHIIV_API_KEY" = Some apiKey) (Nkey : apiKey <> "").
Context (Hpub : env !! "BEEHIIV_PUBLICATION_ID" = Some publicationId).
Context (Npub : publicationId <> "").

Lemma handler_rejected_run (e : string) :
  net (upstreamRequest apiKey publicationId) = FetchRejected e ->
  handler net env w
  = (Ok (failure e (reading w)),
     {| clock := (Clock.read (clock w)).2;
        trace := trace w ++ started apiKey publicationId
                   ++ [ConsoleErrorObject "Error generating RSS feed:" e] |}).
Proof.
  intros Hnet. unfold handler.
  rewrite Hkey, Hpub, (falsy_Some _ Nkey), (falsy_Some _ Npub).
  cbv [orb str default from_option id tryCatch mbind M_bind bind fetch
       consoleLog consoleError consoleErrorObject emit mret M_ret ret throw].
  fold (upstreamRequest apiKey publicationId). rewrite Hnet.
  cbv [newDate]. cbn [clock trace]. unfold reading, failure, started.
  destruct (Clock.read (clock w)) as [n c]. cbn [fst snd].
  rewrite <- !(assoc_L (++)). reflexivity.
Qed.

Lemma handler_not_json_run (r : UpstreamResponse) (e : string) :
  net (upstreamRequest apiKey publicationId) = FetchResolved r ->
  ok r = true -> json r = JsonRejected e ->
  handler net env w
  = (Ok (failure e (reading w)),
     {| clock := (Clock.read (clock w)).2;
        trace := trace w ++ started apiKey publicationId
                   ++ [ConsoleErrorObject "Error generating RSS feed:" e] |}).
Proof.
  intros Hnet Hok Hjson. unfold handler.
  rewrite Hkey, Hpub, (falsy_Some _ Nkey), (falsy_Some _ Npub).
  cbv [orb str default from_option id tryCatch mbind M_bind bind fetch
       consoleLog consoleError consoleErrorObject emit mret M_ret ret throw readJson].
  fold (upstreamRequest apiKey publicationId). rewrite Hnet, Hok, Hjson.
  cbv [negb newDate]. cbn [clock trace]. unfold reading, failure, started.
  destruct (Clock.read (clock w)) as [n c]. cbn [fst snd].
  rewrite <- !(assoc_L (++)). reflexivity.
Qed.

Lemma handler_not_ok_run (r : UpstreamResponse) :
  net (upstreamRequest apiKey publicationId) = FetchResolved r ->
  ok r = false ->
  let details :=
    "Beehiiv API responded with status: " +:+ JSDate.decimal (status r)
      +:+ " - " +:+ text r in
  handler net env w
  = (Ok (failure details (reading w)),
     {| clock := (Clock.read (clock w)).2;
        trace := trace w ++ started apiKey publicationId
          ++ [ConsoleError ("Beehiiv API Error: " +:+ text r);
              ConsoleErrorObject "Error generating RSS feed:" details] |}).
Proof.
  intros Hnet Hok details.
  rewrite (handler_upstream_not_ok net env w apiKey publicationId r
             Hkey Nkey Hpub Npub Hnet Hok).
  reflexivity.
Qed.

Lemma handler_ok_run (r : UpstreamResponse) (b : ApiBody.t) :
  net (upstreamRequest apiKey publicationId) = FetchResolved r ->
  ok r = true -> json r = JsonResolved b ->
  let posts := default [] (ApiBody.data b) in
  handler net env w
  = (Ok {| statusCode := 200;
           resHeaders := feedHeaders;
           body := TextBody
             (Feed.render id (configOf env)
                (JSDate.toUTCString (reading w)) posts) |},
     {| clock := (Clock.read (clock w)).2;
        trace := trace w ++ started apiKey publicationId
          ++ [ConsoleLog ("Successfully fetched "
                            +:+ JSDate.decimal (Z.of_nat (length posts))
                            +:+ " posts")] |}).
Proof.
  intros Hnet Hok Hjson posts.
  rewrite (handler_upstream_ok net env w apiKey publicationId r b
             Hkey Nkey Hpub Npub Hnet Hok Hjson).
  reflexivity.
Qed.

End HandlerPaths.

Lemma fetches_app (xs ys : list Event) :
  fetches (xs ++ ys) = fetches xs ++ fetches ys.
Proof. unfold fetches. apply omap_app. Qed.

Lemma read_not_before (c : Clock.t) :
  (Clock.now c <= Clock.now (Clock.read c).2)%Z.
Proof. unfold Clock.read. destruct (Clock.ticks c); cbn; lia. Qed.

Lemma ok_bounds (r : UpstreamResponse) :
  ok r = true <-> (200 <= status r <= 299)%Z.
Proof. unfold ok. rewrite andb_true_iff, !Z.leb_le. tauto. Qed.

(** X1. With both variables set and an upstream answer in 200..299 whose
    body parses to an object whose [data], when there, is a list of post
    records, the handler answers 200 with the RSS content type and the
    cache header; the body is the feed of the posts under [data], rendered
    with the configured values or their defaults at the time read from the
    clock; the upstream is asked once, with a GET on the posts of the
    publication and the key as bearer token. *)
Theorem handler_success
  (net : Network) (env : gmap string string) (w : World)
  (apiKey publicationId : string) (r : UpstreamResponse) (b : ApiBody.t)
  (Hkey : env !! "BEEHIIV_API_KEY" = Some apiKey) (Nkey : apiKey <> "")
  (Hpub : env !! "BEEHIIV_PUBLICATION_ID" = Some publicationId)
  (Npub : publicationId <> "")
  (Hnet : net (upstreamRequest apiKey publicationId) = FetchResolved r)
  (Hstatus : (200 <= status r <= 299)%Z)
  (Hjson : json r = JsonResolved b) :
  exists xml w',
    handler net env w
    = (Ok {| statusCode := 200; resHeaders := feedHeaders;
             body := TextBody xml |}, w')
    /\ (generateRSSFeed (default [] (ApiBody.data b)) (configOf env) w).1
       = Ok xml
    /\ fetches (trace w')
       = fetches (trace w)
           ++ [{| url := "https://api.beehiiv.com/v2/publications/"
                           +:+ publicationId +:+ "/posts";
                  method := "GET";
                  headers := [("Content-Type", "application/json");
                              ("Authorization", "Bearer " +:+ apiKey)] |}]
    /\ In (ConsoleLog
             ("Successfully fetched "
                +:+ JSDate.decimal
                      (Z.of_nat (length (default [] (ApiBody.data b))))
                +:+ " posts")) (trace w').
Proof.
  apply ok_bounds in Hstatus.
  do 2 eexists.
  rewrite (handler_ok_run net env w apiKey publicationId
             Hkey Nkey Hpub Npub r b Hnet Hstatus Hjson).
  split; [reflexivity|]. rewrite generateRSSFeed_run.
  split; [reflexivity|]. cbn [trace]. split.
  - by rewrite !fetches_app.
  - apply in_or_app. right. cbn. tauto.
Qed.

Lemma handler_success_witness :
  exists xml w',
    handler network_one_post sample_env sample_world
    = (Ok {| statusCode := 200; resHeaders := feedHeaders;
             body := TextBody xml |}, w')
    /\ Str.includes "<title>Q&amp;A</title>" xml = true
    /\ Str.includes "<title>Your Newsletter</title>" xml = true.
Proof.
  destruct (handler_success network_one_post sample_env sample_world
              "key" "pub_1"
              {| status := 200; text := "{...}";
                 json := JsonResolved
                           {| ApiBody.data := Some [post_with_query] |} |}
              {| ApiBody.data := Some [post_with_query] |}
              eq_refl ltac:(discriminate) eq_refl ltac:(discriminate)
              eq_refl ltac:(cbn; lia) eq_refl)
    as (xml & w' & Hrun & Hxml & _).
  exists xml, w'. split; [exact Hrun|].
  apply Ok_inj in Hxml. subst xml. split; vm_compute; reflexivity.
Defined.

(** X2. When the fetch itself fails, the handler answers 500 with the
    message of the failure as details and a timestamp, after one attempt;
    the caught error is passed to [console.error]. *)
Theorem handler_fetch_rejected
  (net : Network) (env : gmap string string) (w : World)
  (apiKey publicationId message : string)
  (Hkey : env !! "BEEHIIV_API_KEY" = Some apiKey) (Nkey : apiKey <> "")
  (Hpub : env !! "BEEHIIV_PUBLICATION_ID" = Some publicationId)
  (Npub : publicationId <> "")
  (Hnet : net (upstreamRequest apiKey publicationId) = FetchRejected message) :
  exists w',
    handler net env w
    = (Ok {| statusCode := 500;
             resHeaders := [];
             body := JsonBody
               [("error", "Failed to generate RSS feed");
                ("details", message);
                ("timestamp", JSDate.toISOString (reading w))] |}, w')
    /\ fetches (trace w')
       = fetches (trace w) ++ [upstreamRequest apiKey publicationId]
    /\ In (ConsoleErrorObject "Error generating RSS feed:" message) (trace w').
Proof.
  eexists.
  rewrite (handler_rejected_run net env w apiKey publicationId
             Hkey Nkey Hpub Npub message Hnet).
  split; [reflexivity|]. cbn [trace]. split.
  - by rewrite !fetches_app.
  - apply in_or_app. right. cbn. tauto.
Qed.

Lemma handler_fetch_rejected_witness :
  exists w',
    handler network_down sample_env sample_world
    = (Ok {| statusCode := 500;
             resHeaders := [];
             body := JsonBody
               [("error", "Failed to generate RSS feed");
                ("details", "fetch failed");
                ("timestamp", "2023-11-14T22:13:20.250Z")] |}, w').
Proof.
  destruct (handler_fetch_rejected network_down sample_env sample_world
              "key" "pub_1" "fetch failed"
              eq_refl ltac:(discriminate) eq_refl ltac:(discriminate) eq_refl)
    as (w' & Hrun & _).
  exists w'. exact Hrun.
Defined.

(** X3. When the upstream answers in 200..299 with a body that does not
    parse as JSON, the handler answers 500 with the parser's message as
    details; nothing is rendered. *)
Theorem handler_json_rejected
  (net : Network) (env : gmap string string) (w : World)
  (apiKey publicationId message : string) (r : UpstreamResponse)
  (Hkey : env !! "BEEHIIV_API_KEY" = Some apiKey) (Nkey : apiKey <> "")
  (Hpub : env !! "BEEHIIV_PUBLICATION_ID" = Some publicationId)
  (Npub : publicationId <> "")
  (Hnet : net (upstreamRequest apiKey publicationId) = FetchResolved r)
  (Hstatus : (200 <= status r <= 299)%Z)
  (Hjson : json r = JsonRejected message) :
  exists w',
    handler net env w
    = (Ok {| statusCode := 500;
             resHeaders := [];
             body := JsonBody
               [("error", "Failed to generate RSS feed");
                ("details", message);
                ("timestamp", JSDate.toISOString (reading w))] |}, w')
    /\ fetches (trace w')
       = fetches (trace w) ++ [upstreamRequest apiKey publicationId]
    /\ ~ In (ConsoleError ("Beehiiv API Error: " +:+ text r))
           (skipn (length (trace w)) (trace w')).
Proof.
  apply ok_bounds in Hstatus. eexists.
  rewrite (handler_not_json_run net env w apiKey publicationId
             Hkey Nkey Hpub Npub r message Hnet Hstatus Hjson).
  split; [reflexivity|]. cbn [trace]. split.
  - by rewrite !fetches_app.
  - rewrite skipn_app, Nat.sub_diag, skipn_all. cbn.
    intros [H|[H|[H|[]]]]; discriminate.
Qed.

Lemma handler_json_rejected_witness :
  exists w',
    handler network_not_json sample_env sample_world
    = (Ok {| statusCode := 500;
             resHeaders := [];
             body := JsonBody
               [("error", "Failed to generate RSS feed");
                ("details", "Unexpected token < in JSON at position 0");
                ("timestamp", "2023-11-14T22:13:20.250Z")] |}, w').
Proof.
  destruct (handler_json_rejected network_not_json sample_env sample_world
              "key" "pub_1" "Unexpected token < in JSON at position 0"
              {| status := 200; text := "<html>";
                 json := JsonRejected "Unexpected token < in JSON at position 0" |}
              eq_refl ltac:(discriminate) eq_refl ltac:(discriminate)
              eq_refl ltac:(cbn; lia) eq_refl)
    as (w' & Hrun & _).
  exists w'. exact Hrun.
Defined.

(** X4. An upstream body that parses to an object without [data] is no
    error: the handler answers 200 with a feed that has the channel and no
    item, and logs 0 posts. *)
Theorem handler_missing_data
  (net : Network) (env : gmap string string) (w : World)
  (apiKey publicationId : string) (r : UpstreamResponse) (b : ApiBody.t)
  (Hkey : env !! "BEEHIIV_API_KEY" = Some apiKey) (Nkey : apiKey <> "")
  (Hpub : env !! "BEEHIIV_PUBLICATION_ID" = Some publicationId)
  (Npub : publicationId <> "")
  (Hnet : net (upstreamRequest apiKey publicationId) = FetchResolved r)
  (Hstatus : (200 <= status r <= 299)%Z)
  (Hjson : json r = JsonResolved b)
  (Hdata : ApiBody.data b = None) :
  exists w',
    handler net env w
    = (Ok {| statusCode := 200;
             resHeaders := feedHeaders;
             body := TextBody
               (Feed.document
                  (Feed.channelChildren id (configOf env)
                     (JSDate.toUTCString (reading w))) []) |}, w')
    /\ In (ConsoleLog "Successfully fetched 0 posts") (trace w').
Proof.
  apply ok_bounds in Hstatus. eexists.
  rewrite (handler_ok_run net env w apiKey publicationId
             Hkey Nkey Hpub Npub r b Hnet Hstatus Hjson).
  rewrite Hdata. split; [reflexivity|].
  cbn [trace]. apply in_or_app. right. cbn. tauto.
Qed.

Lemma handler_missing_data_witness :
  exists w',
    handler network_no_data sample_env sample_world
    = (Ok {| statusCode := 200;
             resHeaders := feedHeaders;
             body := TextBody
               (Feed.document
                  (Feed.channelChildren id (configOf sample_env)
                     "Tue, 14 Nov 2023 22:13:20 GMT") []) |}, w').
Proof.
  destruct (handler_missing_data network_no_data sample_env sample_world
              "key" "pub_1"
              {| status := 200; text := "{}";
                 json := JsonResolved {| ApiBody.data := None |} |}
              {| ApiBody.data := None |}
              eq_refl ltac:(discriminate) eq_refl ltac:(discriminate)
              eq_refl ltac:(cbn; lia) eq_refl eq_refl)
    as (w' & Hrun & _).
  exists w'. exact Hrun.
Defined.

Lemma falsy_cases (a : option string) :
  falsy a = true \/ exists s, a = Some s /\ s <> "".
Proof.
  destruct a as [s|]; [|by left]. cbn.
  destruct (String.eqb_spec s ""); [by left|right; eauto].
Qed.

(** X5. Whatever the environment holds and the network does, the handler
    returns one response and never throws: either 200 with the feed
    headers and a text body, or 500 with no header and a JSON body.  It
    only adds to the log, asks the upstream at most once, and asks it not
    at all unless both required variables are set. *)
Theorem handler_always_responds
  (net : Network) (env : gmap string string) (w : World) :
  exists response w' events,
    handler net env w = (Ok response, w')
    /\ ((statusCode response = 200%Z
         /\ resHeaders response = feedHeaders
         /\ exists xml, body response = TextBody xml)
        \/ (statusCode response = 500%Z
            /\ resHeaders response = []
            /\ exists fields, body response = JsonBody fields))
    /\ trace w' = trace w ++ events
    /\ length (fetches events) <= 1
    /\ (falsy (env !! "BEEHIIV_API_KEY") = true
        \/ falsy (env !! "BEEHIIV_PUBLICATION_ID") = true ->
        events = [] /\ w' = w)
    /\ (Clock.now (clock w) <= Clock.now (clock w'))%Z.
Proof.
  destruct (falsy_cases (env !! "BEEHIIV_API_KEY")) as [F1|(k & Hk & Nk)].
  { exists configError, w, []. rewrite handler_falsy_config by by rewrite F1.
    rewrite app_nil_r. repeat split; eauto; try (cbn; lia). }
  destruct (falsy_cases (env !! "BEEHIIV_PUBLICATION_ID"))
    as [F2|(p & Hp & Np)].
  { exists configError, w, [].
    rewrite handler_falsy_config by (rewrite F2; apply orb_true_r).
    rewrite app_nil_r. repeat split; eauto; try (cbn; lia). }
  assert (forall P : Prop,
            falsy (env !! "BEEHIIV_API_KEY") = true
            \/ falsy (env !! "BEEHIIV_PUBLICATION_ID") = true -> P) as Absurd.
  { rewrite Hk, Hp, (falsy_Some _ Nk), (falsy_Some _ Np).
    by intros P [?|?]. }
  pose proof (read_not_before (clock w)) as Hclock.
  destruct (net (upstreamRequest k p)) as [e|r] eqn:Hnet.
  { do 3 eexists.
    rewrite (handler_rejected_run net env w k p Hk Nk Hp Np e Hnet).
    split; [reflexivity|]. split; [right; cbn; eauto|].
    split; [reflexivity|]. split; [cbn; lia|]. split; [apply Absurd|exact Hclock]. }
  destruct (ok r) eqn:Hok.
  2:{ do 3 eexists.
      rewrite (handler_not_ok_run net env w k p Hk Nk Hp Np r Hnet Hok).
      split; [reflexivity|]. split; [right; cbn; eauto|].
      split; [reflexivity|]. split; [cbn; lia|].
      split; [apply Absurd|exact Hclock]. }
  destruct (json r) as [e|b] eqn:Hjson.
  { do 3 eexists.
    rewrite (handler_not_json_run net env w k p Hk Nk Hp Np r e Hnet Hok Hjson).
    split; [reflexivity|]. split; [right; cbn; eauto|].
    split; [reflexivity|]. split; [cbn; lia|].
    split; [apply Absurd|exact Hclock]. }
  do 3 eexists.
  rewrite (handler_ok_run net env w k p Hk Nk Hp Np r b Hnet Hok Hjson).
  split; [reflexivity|]. split; [left; cbn; eauto|].
  split; [reflexivity|]. split; [cbn; lia|].
  split; [apply Absurd|exact Hclock].
Qed.

(** X6. An optional variable ([FEED_TITLE], [FEED_DESCRIPTION], [FEED_URL],
    [AUTHOR_EMAIL]) set to the empty string gets its default, as if it were
    not set. *)
Theorem handler_optional_empty
  (net : Network) (env : gmap string string) (w : World) (name : string)
  (Hname : In name ["FEED_TITLE"; "FEED_DESCRIPTION"; "FEED_URL"; "AUTHOR_EMAIL"])
  (Hempty : env !! name = Some "") :
  handler net env w = handler net (delete name env) w
  /\ configOf env = configOf (delete name env).
Proof.
  assert (forall key default,
            orElse (delete name env !! key) default
            = orElse (env !! key) default) as Hor.
  { intros key default. destruct (decide (name = key)) as [<-|N].
    - by rewrite lookup_delete_eq, Hempty.
    - by rewrite lookup_delete_ne. }
  assert (forall key,
            In key ["BEEHIIV_API_KEY"; "BEEHIIV_PUBLICATION_ID"] ->
            delete name env !! key = env !! key) as Hreq.
  { intros key Hkey. apply lookup_delete_ne. intros <-.
    cbn in Hname, Hkey. intuition congruence. }
  split.
  - unfold handler. rewrite !Hor, !Hreq by (cbn; tauto). reflexivity.
  - unfold configOf. by rewrite !Hor.
Qed.

Lemma handler_optional_empty_witness :
  let env : gmap string string := <["FEED_TITLE" := ""]> sample_env in
  env !! "FEED_TITLE" = Some ""
  /\ handler network_one_post env sample_world
     = handler network_one_post (delete "FEED_TITLE" env) sample_world
  /\ Config.title (configOf env) = "Your Newsletter".
Proof.
  intros env.
  assert (env !! "FEED_TITLE" = Some "") as H by reflexivity.
  split; [exact H|].
  split; [|reflexivity].
  exact (proj1 (handler_optional_empty network_one_post env sample_world
                  "FEED_TITLE" ltac:(cbn; tauto) H)).
Defined.

(** ** More on [escapeXml] *)

Section EscapeFacts.

Lemma unescape_escape (s : string) : unescape (Spec.escape s) = s.
Proof.
  unfold Spec.escape. induction s as [|c s IH]; [reflexivity|].
  cbn [Spec.substitute].
  destruct c as [[] [] [] [] [] [] [] []];
    cbn [Spec.entity Ascii.eqb Bool.eqb dquote String.append unescape];
    by rewrite IH.
Qed.

Lemma entity_length (c : ascii) :
  1 <= String.length (Spec.entity c) <= 6.
Proof. destruct c as [[] [] [] [] [] [] [] []]; vm_compute; lia. Qed.

Lemma entity_special (c : ascii) :
  isSpecial c = true -> 4 <= String.length (Spec.entity c).
Proof. destruct c as [[] [] [] [] [] [] [] []]; vm_compute; try lia; discriminate. Qed.

Lemma entity_not_special (c : ascii) :
  isSpecial c = false -> Spec.entity c = String c "".
Proof.
  destruct c as [[] [] [] [] [] [] [] []]; vm_compute; try reflexivity;
    discriminate.
Qed.

Lemma escape_length (s : string) :
  String.length s <= String.length (Spec.escape s) <= 6 * String.length s.
Proof.
  unfold Spec.escape. induction s as [|c s IH]; [cbn; lia|].
  cbn [Spec.substitute String.length]. rewrite slength_app.
  pose proof (entity_length c). lia.
Qed.

Lemma escape_fixed (s : string) :
  Spec.escape s = s <-> Str.all (fun c => negb (isSpecial c)) s = true.
Proof.
  unfold Spec.escape. induction s as [|c s IH]; [done|].
  cbn [Spec.substitute Str.all]. destruct (isSpecial c) eqn:S; cbn [negb andb].
  - split; [|discriminate]. intros E. exfalso.
    apply (f_equal String.length) in E. rewrite slength_app in E.
    cbn [String.length] in E.
    pose proof (entity_special c S). pose proof (escape_length s).
    unfold Spec.escape in *. lia.
  - rewrite (entity_not_special c S). cbn [String.append]. rewrite <- IH.
    split; [by intros [= ->]|by intros ->].
Qed.

End EscapeFacts.

(** X7. [escapeXml] loses nothing: reading each entity back as its
    character gives the input again, so two different strings never have
    the same escaped form. *)
Theorem escapeXml_round_trip (s : string) :
  unescape (escapeXml s) = s
  /\ forall s', escapeXml s = escapeXml s' -> s = s'.
Proof.
  split.
  - rewrite escapeXml_escape. apply unescape_escape.
  - intros s' E. rewrite !escapeXml_escape in E.
    rewrite <- (unescape_escape s), <- (unescape_escape s'). by rewrite E.
Qed.

(** X8. [escapeXml] leaves a string as it is exactly when the string holds
    none of the five characters [&], [<], [>], double quote and apostrophe;
    the escaped form of an escaped ampersand is a different string. *)
Theorem escapeXml_fixed_iff (s : string) :
  (escapeXml s = s <-> Str.all (fun c => negb (isSpecial c)) s = true)
  /\ (Str.includes "&" s = true -> escapeXml (escapeXml s) <> escapeXml s).
Proof.
  rewrite !escapeXml_escape. split; [apply escape_fixed|].
  intros H E. apply escape_fixed in E.
  apply includes_inv in H as (a & b & ->).
  unfold Spec.escape in E. rewrite !substitute_app, !all_app in E.
  cbn in E. rewrite andb_false_r in E. discriminate.
Qed.

(** X9. The escaped form is at least as long as the input and at most six
    times as long. *)
Theorem escapeXml_length (s : string) :
  String.length s <= String.length (escapeXml s) <= 6 * String.length s.
Proof. rewrite escapeXml_escape. apply escape_length. Qed.

(** ** More on [cleanHtmlContent] *)

Section CleanFacts.

Lemma replaceFrom_sublist (r : regex) (skip : nat) (s : string) :
  chars (replaceFrom r "" skip s) `sublist_of` chars s.
Proof.
  revert skip. induction s as [|c s IH]; intros skip.
  - cbn [replaceFrom]. destruct skip, (matchAt r ""); constructor.
  - cbn [replaceFrom]. destruct skip as [|k].
    + destruct (matchAt r (String c s)) as [rest|].
      * cbn [String.append].
        destruct (String.length (String c s) - String.length rest).
        -- cbn. constructor. apply IH.
        -- cbn. constructor. apply IH.
      * cbn. constructor. apply IH.
    + cbn. constructor. apply IH.
Qed.

Lemma chars_length (s : string) : length (chars s) = String.length s.
Proof. induction s as [|c s IH]; [reflexivity|]. cbn. by rewrite <- IH. Qed.

Lemma cleanHtmlContent_passes (html : string) :
  cleanHtmlContent html
  = replaceAll (reBlock "style") "" (replaceAll (reBlock "script") "" html).
Proof.
  unfold cleanHtmlContent. by destruct (String.eqb_spec html "") as [->|_].
Qed.

Lemma occursCI_suffix (w a s : string) :
  occursCI w (a +:+ s) = false -> occursCI w s = false.
Proof.
  induction a as [|c a IH]; [done|].
  rewrite sapp_cons. cbn [occursCI]. intros H.
  apply orb_false_iff in H as [_ H]. by apply IH.
Qed.

Lemma occursCI_here (w s : string) :
  occursCI w s = false -> Spec.startsWithCI w s = false.
Proof. destruct s; cbn [occursCI]; intros H; by apply orb_false_iff in H as [H _]. Qed.

Lemma findClose_none (w s : string) :
  occursCI w s = false -> findClose w s = None.
Proof.
  induction s as [|c s IH]; intros H; pose proof (occursCI_here _ _ H) as H0;
    apply dropCI_startsWithCI in H0; cbn [findClose]; rewrite H0;
    [reflexivity|].
  apply IH. cbn [occursCI] in H. by apply orb_false_iff in H as [_ H].
Qed.

(** No block of [tag] starts anywhere in [s]. *)
Lemma replaceAll_no_block (tag s : string) :
  (forall a s', s = a +:+ s' -> blockEnd tag s' = None) ->
  replaceAll (reBlock tag) "" s = s.
Proof.
  induction s as [|c s IH]; intros H.
  - unfold replaceAll. cbn [replaceFrom]. by destruct (matchAt _ "").
  - rewrite replaceAll_no_match.
    + f_equal. apply IH. intros a s' ->. by apply (H (String c a)).
    + rewrite matchAt_reBlock. by apply (H "").
Qed.

Lemma replaceAll_no_opening (tag s : string) :
  occursCI ("<" +:+ tag) s = false -> replaceAll (reBlock tag) "" s = s.
Proof.
  intros H. apply replaceAll_no_block. intros a s' ->.
  apply occursCI_suffix, occursCI_here, dropCI_startsWithCI in H.
  unfold blockEnd. by rewrite H.
Qed.

Lemma replaceAll_no_closing (tag s : string) :
  occursCI ("</" +:+ tag +:+ ">") s = false ->
  replaceAll (reBlock tag) "" s = s.
Proof.
  intros H. apply replaceAll_no_block. intros a s' ->.
  apply occursCI_suffix in H. unfold blockEnd.
  destruct (dropCI _ s') as [s1|] eqn:D; [|reflexivity].
  destruct (afterGt s1) as [s2|] eqn:G; [|reflexivity].
  apply findClose_none.
  apply dropCI_Some in D as (o & -> & _).
  apply afterGt_Some in G as (attrs & -> & _).
  apply occursCI_suffix in H. rewrite <- sapp_assoc in H.
  by apply occursCI_suffix in H.
Qed.

End CleanFacts.

(** X10. [cleanHtmlContent] only deletes: the characters of its result are
    characters of the input in the same order, so the result is never
    longer than the input and holds nothing the input did not hold. *)
Theorem cleanHtmlContent_only_deletes (html : string) :
  chars (cleanHtmlContent html) `sublist_of` chars html
  /\ String.length (cleanHtmlContent html) <= String.length html.
Proof.
  assert (chars (cleanHtmlContent html) `sublist_of` chars html) as H.
  { rewrite cleanHtmlContent_passes. unfold replaceAll.
    etrans; apply replaceFrom_sublist. }
  split; [exact H|]. rewrite <- !chars_length. by apply sublist_length.
Qed.

(** X11. Content in which neither [<script] nor [<style] occurs, in any
    case, comes out unchanged: other tags, attributes and text are kept as
    they are. *)
Theorem cleanHtmlContent_no_opening_tag (html : string)
  (Hscript : occursCI "<script" html = false)
  (Hstyle : occursCI "<style" html = false) :
  cleanHtmlContent html = html.
Proof.
  rewrite cleanHtmlContent_passes.
  rewrite (replaceAll_no_opening "script" html Hscript).
  apply (replaceAll_no_opening "style" html Hstyle).
Qed.

Lemma cleanHtmlContent_no_opening_tag_witness :
  cleanHtmlContent "<p onclick='x()'>Tom &amp; Jerry</p><img src=a.png>]]>"
  = "<p onclick='x()'>Tom &amp; Jerry</p><img src=a.png>]]>".
Proof.
  exact (cleanHtmlContent_no_opening_tag
           "<p onclick='x()'>Tom &amp; Jerry</p><img src=a.png>]]>"
           eq_refl eq_refl).
Defined.

(** X12. An opening script or style tag that is never closed removes
    nothing: content in which neither [</script>] nor [</style>] occurs, in
    any case, comes out unchanged, the opening tag and what follows it
    included. *)
Theorem cleanHtmlContent_unclosed (html : string)
  (Hscript : occursCI "</script>" html = false)
  (Hstyle : occursCI "</style>" html = false) :
  cleanHtmlContent html = html.
Proof.
  rewrite cleanHtmlContent_passes.
  rewrite (replaceAll_no_closing "script" html Hscript).
  apply (replaceAll_no_closing "style" html Hstyle).
Qed.

Lemma cleanHtmlContent_unclosed_witness :
  cleanHtmlContent "<p>hi</p><script>alert(1)</scrip" 
  = "<p>hi</p><script>alert(1)</scrip".
Proof.
  exact (cleanHtmlContent_unclosed "<p>hi</p><script>alert(1)</scrip"
           eq_refl eq_refl).
Defined.

Section OneBlock.

Lemma litCI_lt (x : ascii) : litCI "<" x = true -> x = "<"%char.
Proof.
  destruct x as [[] [] [] [] [] [] [] []]; vm_compute; try discriminate;
    reflexivity.
Qed.

Lemma is_block_starts (tag b : string) :
  Spec.is_block tag b -> exists b', b = String "<" b'.
Proof.
  intros (o & attrs & body & closing & -> & Ho & _).
  destruct o as [|x o]; [discriminate|]. cbn in Ho.
  apply andb_true_iff in Ho as [Hx _]. apply litCI_lt in Hx as ->.
  rewrite sapp_cons. eauto.
Qed.

Lemma strips_no_lt (tag s : string) :
  Str.all (notChr "<") s = true -> Spec.strips tag s s.
Proof.
  induction s as [|c s IH]; [constructor|]. cbn [Str.all].
  intros [Hc Hs]%andb_true_iff. constructor; [|by apply IH].
  intros b rest [b' ->]%is_block_starts E. rewrite sapp_cons in E.
  injection E as -> _. unfold notChr in Hc. by rewrite Ascii.eqb_refl in Hc.
Qed.

Lemma strips_around_block (tag before block after : string) :
  Str.all (notChr "<") before = true ->
  Str.all (notChr "<") after = true ->
  Spec.is_block tag block ->
  Spec.strips tag (before +:+ block +:+ after) (before +:+ after).
Proof.
  intros Hb Ha B. induction before as [|c before IH].
  - cbn [String.append]. constructor; [exact B|by apply strips_no_lt].
  - cbn [Str.all] in Hb. apply andb_true_iff in Hb as [Hc Hb].
    rewrite !sapp_cons. constructor; [|by apply IH].
    intros b rest [b' ->]%is_block_starts E. rewrite sapp_cons in E.
    injection E as -> _. unfold notChr in Hc. by rewrite Ascii.eqb_refl in Hc.
Qed.

Lemma no_lt_no_opening (tag s : string) :
  Str.all (notChr "<") s = true -> occursCI ("<" +:+ tag) s = false.
Proof.
  change ("<" +:+ tag) with (String "<" tag).
  induction s as [|c s IH]; [reflexivity|]. cbn [Str.all].
  intros [Hc Hs]%andb_true_iff. cbn [occursCI Spec.startsWithCI].
  rewrite (IH Hs), orb_false_r. apply andb_false_iff. left.
  destruct (litCI "<" c) eqn:L; [|reflexivity].
  apply litCI_lt in L as ->. unfold notChr in Hc.
  by rewrite Ascii.eqb_refl in Hc.
Qed.

End OneBlock.

(** X13. A script block between two texts without [<] is removed whole and
    the texts are joined: whatever the case of the tags, the attributes of
    the opening tag and the lines of the body. *)
Theorem cleanHtmlContent_removes_script (before block after : string)
  (Hbefore : Str.all (notChr "<") before = true)
  (Hafter : Str.all (notChr "<") after = true)
  (Hblock : Spec.is_block "script" block) :
  cleanHtmlContent (before +:+ block +:+ after) = before +:+ after.
Proof.
  rewrite cleanHtmlContent_passes.
  rewrite <- (strips_unique "script" _ _
                (strips_around_block "script" before block after
                   Hbefore Hafter Hblock)).
  apply replaceAll_no_opening, no_lt_no_opening.
  by rewrite all_app, Hbefore, Hafter.
Qed.

Lemma cleanHtmlContent_removes_script_witness :
  cleanHtmlContent
    ("Hello " +:+ "<SCRIPT type='text/javascript'>
if (a > b) { alert('</p>'); }
</Script>" +:+ " world")
  = "Hello  world".
Proof.
  apply (cleanHtmlContent_removes_script "Hello "); [reflexivity..|].
  assert (blockEnd "script"
            ("<SCRIPT type='text/javascript'>
if (a > b) { alert('</p>'); }
</Script>" +:+ "") = Some "") as E by (vm_compute; reflexivity).
  apply blockEnd_Some in E as (b & B & E).
  rewrite !sapp_nil_r in E. by subst b.
Defined.

(** X14. A style block between two texts without [<] is removed whole and
    the texts are joined, provided [<script] does not occur in the
    content. *)
Theorem cleanHtmlContent_removes_style (before block after : string)
  (Hbefore : Str.all (notChr "<") before = true)
  (Hafter : Str.all (notChr "<") after = true)
  (Hblock : Spec.is_block "style" block)
  (Hscript : occursCI "<script" (before +:+ block +:+ after) = false) :
  cleanHtmlContent (before +:+ block +:+ after) = before +:+ after.
Proof.
  rewrite cleanHtmlContent_passes.
  rewrite (replaceAll_no_opening "script" _ Hscript).
  symmetry. apply strips_unique.
  by apply strips_around_block.
Qed.

Lemma cleanHtmlContent_removes_style_witness :
  cleanHtmlContent ("a" +:+ "<style media=print>p { color: red }</STYLE>" +:+ "b")
  = "ab".
Proof.
  apply (cleanHtmlContent_removes_style "a"); [reflexivity..| |reflexivity].
  assert (blockEnd "style"
            ("<style media=print>p { color: red }</STYLE>" +:+ "") = Some "")
    as E by (vm_compute; reflexivity).
  apply blockEnd_Some in E as (b & B & E).
  rewrite !sapp_nil_r in E. by subst b.
Defined.

(** ** More on the items *)

(** X15. A post with a URL, a publication date and a title gets an item
    made of its own values: link and guid are the URL as it is, pubDate is
    the publication date, the title is the escaped title; neither the feed
    URL nor the current date shows in the item. *)
Theorem rssItem_own_values
  (config : Config.t) (currentDate : string) (post : Post.t)
  (url title : string) (time : Z)
  (Hurl : Post.web_url post = Some url) (Nurl : url <> "")
  (Hdate : Post.publish_date post = Some time) (Ndate : time <> 0%Z)
  (Htitle : Post.title post = Some title) (Ntitle : title <> "") :
  rssItem config currentDate post
  = Feed.item
      [("title", escapeXml title);
       ("link", url);
       ("guid", url);
       ("pubDate", JSDate.toUTCString time);
       ("author", Config.authorEmail config);
       ("description",
        "<![CDATA[" +:+ cleanHtmlContent (Feed.descriptionSource post)
          +:+ "]]>")].
Proof.
  rewrite rssItem_item.
  unfold Feed.itemChildren, Feed.postUrl, Feed.pubDate, orElse.
  rewrite Hurl, Hdate, Htitle, escapeXml_escape.
  rewrite (proj2 (String.eqb_neq _ _) Nurl), (proj2 (String.eqb_neq _ _) Ntitle).
  by rewrite (proj2 (Z.eqb_neq _ _) Ndate).
Qed.

Lemma rssItem_own_values_witness :
  rssItem sample_config "now" post_with_query
  = Feed.item
      [("title", "Q&amp;A");
       ("link", "https://example.com/p/1?a=1&b=2");
       ("guid", "https://example.com/p/1?a=1&b=2");
       ("pubDate", "Tue, 14 Nov 2023 22:13:20 GMT");
       ("author", "me@example.com");
       ("description", "<![CDATA[]]>")].
Proof.
  exact (rssItem_own_values sample_config "now" post_with_query
           "https://example.com/p/1?a=1&b=2" "Q&A" 1700000000000
           eq_refl ltac:(discriminate) eq_refl ltac:(discriminate)
           eq_refl ltac:(discriminate)).
Defined.

Section Normalize.

Lemma orElse_truthy (a : option string) (b : string) :
  orElse (truthy a) b = orElse a b.
Proof.
  destruct a as [s|]; [|reflexivity]. cbn.
  destruct (String.eqb_spec s "") as [->|N]; [reflexivity|].
  cbn. by rewrite (proj2 (String.eqb_neq _ _) N).
Qed.

Lemma freeWeb_normalize (post : Post.t) :
  freeWeb (normalize post) = truthy (freeWeb post).
Proof. unfold freeWeb at 1. cbn. by destruct (truthy (freeWeb post)). Qed.

Lemma itemChildren_normalize
  (config : Config.t) (d : string) (post : Post.t) :
  Feed.itemChildren id config d (normalize post)
  = Feed.itemChildren id config d post.
Proof.
  unfold Feed.itemChildren, Feed.postUrl, Feed.pubDate, Feed.descriptionSource.
  rewrite freeWeb_normalize. cbn [normalize Post.title Post.web_url Post.id
    Post.publish_date Post.subtitle].
  rewrite !orElse_truthy.
  destruct (Post.publish_date post) as [t|]; [|reflexivity].
  destruct (Z.eqb_spec t 0) as [->|N]; [reflexivity|].
  by rewrite (proj2 (Z.eqb_neq _ _) N).
Qed.

Lemma kept_map_normalize (posts : list Post.t) :
  Spec.kept (map normalize posts) = map normalize (Spec.kept posts).
Proof.
  unfold Spec.kept. rewrite <- firstn_map. f_equal.
  induction posts as [|p posts IH]; [reflexivity|].
  cbn [map List.filter]. rewrite IH.
  by destruct (isConfirmed p) eqn:E; unfold isConfirmed in *; cbn in *; rewrite E.
Qed.

End Normalize.

(** X16. In a post, an empty [web_url], [title], [subtitle] or
    [content.free.web] and a [publish_date] of 0 count as missing: the item
    and the whole feed are those of the posts with these values left
    out. *)
Theorem generateRSSFeed_empty_is_missing
  (posts : list Post.t) (config : Config.t) (w : World) :
  generateRSSFeed (map normalize posts) config w
  = generateRSSFeed posts config w
  /\ forall currentDate post,
       rssItem config currentDate (normalize post)
       = rssItem config currentDate post.
Proof.
  split.
  - rewrite !generateRSSFeed_run. unfold Feed.render.
    rewrite kept_map_normalize, map_map.
    by rewrite (map_ext _ _ (itemChildren_normalize config _)).
  - intros d post. by rewrite !rssItem_item, itemChildren_normalize.
Qed.

(** X17. A publication date outside the range of a [Date] does not stop
    the rendering: the item is rendered with the text [Invalid Date] as
    its pubDate. *)
Theorem rssItem_invalid_date
  (config : Config.t) (currentDate : string) (post : Post.t) (time : Z)
  (Hdate : Post.publish_date post = Some time)
  (Hrange : (time < -8640000000000000 \/ 8640000000000000 < time)%Z) :
  exists children,
    rssItem config currentDate post = Feed.item children
    /\ map fst children = itemTags
    /\ In ("pubDate", "Invalid Date") children.
Proof.
  exists (Feed.itemChildren id config currentDate post).
  split; [apply rssItem_item|]. split; [reflexivity|].
  unfold Feed.itemChildren, Feed.pubDate. rewrite Hdate.
  assert (time <> 0%Z) as N by lia.
  rewrite (proj2 (Z.eqb_neq _ _) N).
  assert (JSDate.toUTCString time = "Invalid Date") as ->.
  { unfold JSDate.toUTCString, JSDate.valid.
    by rewrite (proj2 (Z.leb_gt _ _)) by lia. }
  cbn. tauto.
Qed.

Lemma rssItem_invalid_date_witness :
  exists children,
    rssItem sample_config "now" post_far_future = Feed.item children
    /\ map fst children = itemTags
    /\ In ("pubDate", "Invalid Date") children.
Proof.
  exact (rssItem_invalid_date sample_config "now" post_far_future
           9000000000000000 eq_refl ltac:(right; reflexivity)).
Defined.

Example rssItem_all_empty :
  rssItem sample_config "now" post_all_empty
  = Feed.item
      [("title", "Untitled Post");
       ("link", "https://example.com/post/e1");
       ("guid", "https://example.com/post/e1");
       ("pubDate", "now");
       ("author", "me@example.com");
       ("description", "<![CDATA[]]>")].
Proof. rewrite rssItem_item. vm_compute. reflexivity. Qed.

(** ** The dates of the document *)

Section DateCharacters.

Let plain (s : string) : Prop :=
  Str.all (fun c => negb (isSpecial c)) s = true.

Lemma plain_app (a b : string) : plain a -> plain b -> plain (a +:+ b).
Proof. unfold plain. intros Ha Hb. by rewrite all_app, Ha, Hb. Qed.

Lemma plain_uint (d : Decimal.uint) : plain (NilEmpty.string_of_uint d).
Proof. unfold plain. induction d; cbn; by rewrite ?IHd. Qed.

Lemma plain_decimal (n : Z) : plain (JSDate.decimal n).
Proof.
  unfold JSDate.decimal, NilZero.string_of_int, NilZero.string_of_uint.
  destruct (Z.to_int n) as [d|d].
  - destruct d; try apply plain_uint. reflexivity.
  - change (plain ("-" +:+ match d with
                           | Decimal.Nil => "0"
                           | _ => NilEmpty.string_of_uint d
                           end)).
    apply plain_app; [reflexivity|].
    destruct d; try apply plain_uint. reflexivity.
Qed.

Lemma plain_zeros (n : nat) : plain (JSDate.zeros n).
Proof. unfold plain. induction n as [|n IH]; [reflexivity|]. cbn. exact IH. Qed.

Lemma plain_padded (w : nat) (n : Z) : plain (JSDate.padded w n).
Proof.
  unfold JSDate.padded. apply plain_app; [apply plain_zeros|apply plain_decimal].
Qed.

Lemma plain_name (names : list string) (i : Z) :
  Forall plain names -> plain (JSDate.name names i).
Proof.
  intros H. unfold JSDate.name.
  destruct (nth_in_or_default (Z.to_nat i) names "") as [Hin| ->];
    [|reflexivity].
  rewrite Forall_forall in H. apply H. by apply list_elem_of_In.
Qed.

Lemma plain_timeOfDay (t : Z) : plain (JSDate.timeOfDay t).
Proof.
  unfold JSDate.timeOfDay.
  repeat (apply plain_app; [first [apply plain_padded|reflexivity]|]).
  apply plain_padded.
Qed.

Lemma plain_toUTCString (t : Z) : plain (JSDate.toUTCString t).
Proof.
  unfold JSDate.toUTCString. destruct (JSDate.valid t); [|reflexivity].
  cbv zeta.
  apply plain_app; [apply plain_name; repeat constructor|].
  apply plain_app; [reflexivity|].
  apply plain_app; [apply plain_padded|].
  apply plain_app; [reflexivity|].
  apply plain_app; [apply plain_name; repeat constructor|].
  apply plain_app; [reflexivity|].
  apply plain_app; [by destruct (_ <? _)%Z|].
  apply plain_app; [apply plain_padded|].
  apply plain_app; [reflexivity|].
  apply plain_app; [apply plain_timeOfDay|reflexivity].
Qed.

End DateCharacters.

(** X18. The dates of the document need no escaping: whatever the time
    read from the clock and the publication date of a post, the texts of
    lastBuildDate and pubDate hold none of the five characters, and
    [escapeXml] would leave them as they are. *)
Theorem dates_need_no_escaping
  (posts : list Post.t) (config : Config.t) (w : World) :
  let d := JSDate.toUTCString (reading w) in
  (generateRSSFeed posts config w).1 = Ok (Feed.render id config d posts)
  /\ escapeXml d = d
  /\ (forall post, escapeXml (Feed.pubDate d post) = Feed.pubDate d post)
  /\ forall t, Str.all (fun c => negb (isSpecial c)) (JSDate.toUTCString t)
               = true.
Proof.
  intros d. rewrite generateRSSFeed_run. split; [reflexivity|].
  assert (forall t, escapeXml (JSDate.toUTCString t) = JSDate.toUTCString t)
    as E.
  { intros t. rewrite escapeXml_escape. apply escape_fixed, plain_toUTCString. }
  split; [apply E|]. split; [|apply plain_toUTCString].
  intros post. unfold Feed.pubDate.
  destruct (Post.publish_date post) as [t|]; [|apply E].
  destruct (t =? 0)%Z; apply E.
Qed.

(** ** More on the choice of posts *)

Section Choice.

Context (config : Config.t) (w : World).

Lemma kept_app_full (posts more : list Post.t) :
  20 <= length (List.filter isConfirmed posts) ->
  Spec.kept (posts ++ more) = Spec.kept posts.
Proof.
  intros H. unfold Spec.kept. rewrite List.filter_app, firstn_app.
  replace (20 - length (List.filter isConfirmed posts)) with 0 by lia.
  cbn [firstn]. apply app_nil_r.
Qed.

Lemma kept_skip (before after : list Post.t) (post : Post.t) :
  isConfirmed post = false ->
  Spec.kept (before ++ post :: after) = Spec.kept (before ++ after).
Proof.
  intros H. unfold Spec.kept. rewrite !List.filter_app. cbn [List.filter].
  by rewrite H.
Qed.

Lemma render_kept (posts posts' : list Post.t) :
  Spec.kept posts = Spec.kept posts' ->
  generateRSSFeed posts config w = generateRSSFeed posts' config w.
Proof. intros E. rewrite !generateRSSFeed_run. unfold Feed.render. by rewrite E. Qed.

End Choice.

(** X19. Once a list holds 20 confirmed posts, whatever follows it is
    ignored: the feed of the longer list is the feed of the list. *)
Theorem generateRSSFeed_ignores_after_limit
  (posts more : list Post.t) (config : Config.t) (w : World)
  (Hfull : 20 <= length (List.filter isConfirmed posts)) :
  generateRSSFeed (posts ++ more) config w = generateRSSFeed posts config w.
Proof. by apply render_kept, kept_app_full. Qed.

Lemma generateRSSFeed_ignores_after_limit_witness :
  generateRSSFeed (repeat bare_post 20 ++ [post_with_query]) sample_config
    sample_world
  = generateRSSFeed (repeat bare_post 20) sample_config sample_world.
Proof.
  exact (generateRSSFeed_ignores_after_limit (repeat bare_post 20)
           [post_with_query] sample_config sample_world
           ltac:(cbn; lia)).
Defined.

(** X20. A post whose status is not ["confirmed"] changes nothing,
    wherever it stands in the list: it neither shows nor counts towards
    the 20. *)
Theorem generateRSSFeed_ignores_unconfirmed
  (before after : list Post.t) (post : Post.t) (config : Config.t) (w : World)
  (Hstatus : Post.status post <> Some "confirmed") :
  generateRSSFeed (before ++ post :: after) config w
  = generateRSSFeed (before ++ after) config w.
Proof.
  apply render_kept, kept_skip.
  destruct (isConfirmed post) eqn:E; [|reflexivity].
  by apply isConfirmed_status in E.
Qed.

Lemma generateRSSFeed_ignores_unconfirmed_witness :
  generateRSSFeed ([post_with_query] ++ draft_post :: [bare_post])
    sample_config sample_world
  = generateRSSFeed ([post_with_query] ++ [bare_post]) sample_config
      sample_world.
Proof.
  exact (generateRSSFeed_ignores_unconfirmed [post_with_query] [bare_post]
           draft_post sample_config sample_world ltac:(discriminate)).
Defined.

(** ** The renderer as a whole *)

Lemma join_In (x : string) (xs : list string) :
  In x xs -> exists a b, Str.join xs = a +:+ x +:+ b.
Proof.
  induction xs as [|y xs IH]; [done|]. rewrite join_cons. intros [->|H].
  - by exists "", (Str.join xs).
  - destruct (IH H) as (a & b & ->). exists (y +:+ a), b.
    by rewrite sapp_assoc.
Qed.

(** X21. The renderer writes nothing to the log and fetches nothing; it
    reads the clock once, however many posts it renders, and leaves a
    clock that is not behind the one it found. *)
Theorem generateRSSFeed_effects
  (posts : list Post.t) (config : Config.t) (w : World) :
  let w' := (generateRSSFeed posts config w).2 in
  trace w' = trace w
  /\ clock w' = (Clock.read (clock w)).2
  /\ Clock.ticks (clock w') = tail (Clock.ticks (clock w))
  /\ Clock.now (clock w') = reading w
  /\ (Clock.now (clock w) <= Clock.now (clock w'))%Z.
Proof.
  intros w'. unfold w'. rewrite generateRSSFeed_run. cbn [snd].
  unfold after_reading, reading. cbn [clock trace].
  split; [reflexivity|]. split; [reflexivity|].
  split; [|split; [|apply read_not_before]];
    unfold Clock.read; destruct (Clock.ticks (clock w)) eqn:E; cbn;
    by rewrite ?E.
Qed.

(** X22. The document starts with the XML declaration and holds, as it is,
    the item of every post that is kept. *)
Theorem generateRSSFeed_holds_items
  (posts : list Post.t) (config : Config.t) (w : World) (post : Post.t)
  (Hkept : In post (Spec.kept posts)) :
  exists xml,
    (generateRSSFeed posts config w).1 = Ok xml
    /\ Str.startsWith "<?xml version=" xml = true
    /\ Str.includes (rssItem config (JSDate.toUTCString (reading w)) post) xml
       = true.
Proof.
  eexists. rewrite generateRSSFeed_run. split; [reflexivity|].
  unfold Feed.render, Feed.document. split.
  - unfold Feed.prologue. rewrite !sapp_assoc. apply startsWith_app.
  - rewrite rssItem_item.
    destruct (join_In
                (Feed.item
                   (Feed.itemChildren id config
                      (JSDate.toUTCString (reading w)) post))
                (map Feed.item
                   (map (Feed.itemChildren id config
                           (JSDate.toUTCString (reading w)))
                      (Spec.kept posts))))
      as (a & b & ->).
    { by do 2 apply in_map. }
    set (item := Feed.item _).
    set (channel := Feed.elements "    "
                      (Feed.channelChildren id config
                         (JSDate.toUTCString (reading w)))).
    replace (Feed.prologue +:+ nl +:+ "  <channel>" +:+ channel
               +:+ (a +:+ item +:+ b) +:+ nl +:+ "  </channel>"
               +:+ nl +:+ "</rss>")
      with ((Feed.prologue +:+ nl +:+ "  <channel>" +:+ channel +:+ a)
              +:+ item
              +:+ (b +:+ nl +:+ "  </channel>" +:+ nl +:+ "</rss>"))
      by (by rewrite !sapp_assoc).
    apply includes_intro.
Qed.

Lemma generateRSSFeed_holds_items_witness :
  exists xml,
    (generateRSSFeed [draft_post; post_with_query] sample_config sample_world).1
    = Ok xml
    /\ Str.startsWith "<?xml version=" xml = true
    /\ Str.includes
         (rssItem sample_config "Tue, 14 Nov 2023 22:13:20 GMT" post_with_query)
         xml = true.
Proof.
  exact (generateRSSFeed_holds_items [draft_post; post_with_query]
           sample_config sample_world post_with_query ltac:(cbn; tauto)).
Defined.

Lemma includes_app_r (p a s : string) :
  Str.includes p s = true -> Str.includes p (a +:+ s) = true.
Proof.
  intros H. induction a as [|c a IH]; [exact H|].
  rewrite sapp_cons. cbn [Str.includes]. rewrite IH. apply orb_true_r.
Qed.

(** X23. The description is never escaped: content without a script or
    style tag stands in the item between the CDATA marks exactly as it came
    from the post, its [&], [<], [>] and any []]>] included. *)
Theorem rssItem_description_verbatim
  (config : Config.t) (currentDate : string) (post : Post.t)
  (Hscript : occursCI "<script" (Feed.descriptionSource post) = false)
  (Hstyle : occursCI "<style" (Feed.descriptionSource post) = false) :
  Str.includes
    ("<description><![CDATA[" +:+ Feed.descriptionSource post
       +:+ "]]></description>")
    (rssItem config currentDate post) = true.
Proof.
  assert (cleanHtmlContent (Feed.descriptionSource post)
          = Feed.descriptionSource post) as E.
  { rewrite cleanHtmlContent_passes.
    rewrite (replaceAll_no_opening "script" _ Hscript).
    apply (replaceAll_no_opening "style" _ Hstyle). }
  unfold rssItem. fold (Feed.descriptionSource post). rewrite E.
  set (source := Feed.descriptionSource post).
  do 23 apply includes_app_r.
  replace ("      <description><![CDATA[" +:+ source +:+ "]]></description>"
             +:+ nl +:+ "    </item>")
    with ("      "
            +:+ ("<description><![CDATA[" +:+ source +:+ "]]></description>")
            +:+ (nl +:+ "    </item>"))
    by (rewrite !sapp_assoc; reflexivity).
  apply includes_intro.
Qed.

Lemma rssItem_description_verbatim_witness :
  let post :=
    {| Post.id := "v1";
       Post.status := Some "confirmed";
       Post.publish_date := None;
       Post.web_url := None;
       Post.title := None;
       Post.subtitle := Some "1 < 2 && 3 > 2 ]]> end";
       Post.content := None |} in
  Str.includes
    "<description><![CDATA[1 < 2 && 3 > 2 ]]> end]]></description>"
    (rssItem sample_config "now" post) = true.
Proof.
  intros post.
  exact (rssItem_description_verbatim sample_config "now" post
           eq_refl eq_refl).
Defined.

(** ** The description of an item *)

Lemma rssItem_includes_description
  (config : Config.t) (currentDate : string) (post : Post.t) :
  Str.includes
    ("<description><![CDATA["
       +:+ cleanHtmlContent (Feed.descriptionSource post)
       +:+ "]]></description>")
    (rssItem config currentDate post) = true.
Proof.
  unfold rssItem. fold (Feed.descriptionSource post).
  set (description := cleanHtmlContent (Feed.descriptionSource post)).
  do 23 apply includes_app_r.
  replace ("      <description><![CDATA[" +:+ description
             +:+ "]]></description>" +:+ nl +:+ "    </item>")
    with ("      "
            +:+ ("<description><![CDATA[" +:+ description
                   +:+ "]]></description>")
            +:+ (nl +:+ "    </item>"))
    by (rewrite !sapp_assoc; reflexivity).
  apply includes_intro.
Qed.

Lemma descriptionSource_truthy (post : Post.t) :
  Feed.descriptionSource post
  = match truthy (freeWeb post) with
    | Some html => html
    | None =>
        match truthy (Post.subtitle post) with
        | Some sub => sub
        | None => ""
        end
    end.
Proof.
  unfold Feed.descriptionSource, orElse, truthy.
  destruct (freeWeb post) as [html|]; [destruct (String.eqb html "")|];
    try reflexivity;
    destruct (Post.subtitle post) as [sub|]; try reflexivity;
    by destruct (String.eqb_spec sub "").
Qed.

(** C7, as stated, fails twice.  Removing the style block of
    [<scr<style></style>ipt>alert(1)</script>] leaves
    [<script>alert(1)</script>], a script block, as the description.  A
    [content.free.web] that is there but empty is passed over: the
    description is the subtitle. *)
Lemma description_as_claimed_fails :
  ~ description_as_claimed post_spliced_script
  /\ ~ description_as_claimed post_empty_web
  /\ Str.includes
       "<description><![CDATA[<script>alert(1)</script>]]></description>"
       (rssItem sample_config "now" post_spliced_script) = true
  /\ Str.includes "<description><![CDATA[Sub]]></description>"
       (rssItem sample_config "now" post_empty_web) = true.
Proof.
  split.
  { intros [_ H].
    assert (blockEnd "script" ("<script>alert(1)</script>" +:+ "") = Some "")
      as E by (vm_compute; reflexivity).
    apply blockEnd_Some in E as (b & B & E). rewrite !sapp_nil_r in E.
    subst b. apply (H "script" ltac:(cbn; tauto) "" _ "" B).
    vm_compute. reflexivity. }
  split.
  { intros [H _]. vm_compute in H. discriminate. }
  split; vm_compute; reflexivity.
Qed.

(** C7, amended. The description of an item is the post's
    [content.free.web] if it is there and not empty, else its subtitle if
    it is there and not empty, else the empty string; script blocks are
    removed from it in one pass from left to right, each block running
    from an opening tag to the first closing tag after it (tags in any
    case, bodies over any characters, line ends included), then style
    blocks in one such pass over the result.  Every other character is
    kept, in order, and nothing is added; what is left is not read again,
    so it can still hold a block.  The result stands in a CDATA section,
    not escaped.  The content [<p>hi</p><script>alert(1)</script>] gives a
    description that holds [<p>hi</p>] and no [<script>]. *)
Theorem rssItem_description
  (config : Config.t) (currentDate : string) (post : Post.t) :
  let source := Feed.descriptionSource post in
  let description := cleanHtmlContent source in
  Str.includes
    ("<description><![CDATA[" +:+ description +:+ "]]></description>")
    (rssItem config currentDate post) = true
  /\ rssItem config currentDate post
     = Feed.item (Feed.itemChildren id config currentDate post)
  /\ In ("description", "<![CDATA[" +:+ description +:+ "]]>")
        (Feed.itemChildren id config currentDate post)
  /\ source
     = match truthy (freeWeb post) with
       | Some html => html
       | None =>
           match truthy (Post.subtitle post) with
           | Some sub => sub
           | None => ""
           end
       end
  /\ (exists cleaned,
        Spec.strips "script" source cleaned
        /\ Spec.strips "style" cleaned description)
  /\ (forall cleaned out,
        Spec.strips "script" source cleaned ->
        Spec.strips "style" cleaned out -> out = description)
  /\ chars description `sublist_of` chars source
  /\ (let sample :=
        cleanHtmlContent (Feed.descriptionSource post_with_script) in
      Str.includes "<p>hi</p>" sample = true
      /\ Str.includes "<script>" sample = false).
Proof.
  intros source description.
  assert (description
          = replaceAll (reBlock "style") ""
              (replaceAll (reBlock "script") "" source)) as D
    by apply cleanHtmlContent_passes.
  split; [apply rssItem_includes_description|].
  split; [apply rssItem_item|].
  split; [cbn; tauto|].
  split; [apply descriptionSource_truthy|].
  split.
  { exists (replaceAll (reBlock "script") "" source). rewrite D.
    split; apply strips_replaceAll. }
  split.
  { intros cleaned out S1 S2. rewrite D.
    apply strips_unique in S1 as ->. by apply strips_unique in S2. }
  split.
  { rewrite D. unfold replaceAll. etrans; apply replaceFrom_sublist. }
  split; vm_compute; reflexivity.
Qed.

(** ** The elements of the document *)


Section Counting.

Lemma notChr_lt (c : ascii) : notChr "<" c = true -> Ascii.eqb "<" c = false.
Proof. unfold notChr. by destruct (Ascii.eqb "<" c). Qed.

(** A value without [<] holds no tag and starts no CDATA section. *)
Lemma count_value (p' v rest : string) :
  noTag v ->
  countOutside (String "<" p') false (v +:+ rest)
  = countOutside (String "<" p') false rest.
Proof.
  unfold noTag. induction v as [|c v IH]; [done|]. cbn [Str.all].
  intros [Hc Hv]%andb_true_iff. apply notChr_lt in Hc.
  rewrite sapp_cons. cbn [countOutside Str.startsWith]. rewrite Hc.
  cbn [Nat.add]. by apply IH.
Qed.

Lemma startsWith_end_app (x : ascii) (c rest : string) :
  Str.startsWith "]]>" (String x c) = false ->
  Str.startsWith "]]>" (String x c +:+ "]]>" +:+ rest) = false.
Proof.
  destruct c as [|y [|z c]]; cbn [String.append Str.startsWith].
  - intros _. by destruct (Ascii.eqb "]" x).
  - intros _. by destruct (Ascii.eqb "]" x), (Ascii.eqb "]" y).
  - done.
Qed.

Lemma count_inside (p' c rest : string) :
  Str.includes "]]>" c = false ->
  countOutside (String "<" p') true (c +:+ "]]>" +:+ rest)
  = countOutside (String "<" p') false rest.
Proof.
  induction c as [|x c IH].
  - intros _. reflexivity.
  - cbn [Str.includes]. intros [H1 H2]%orb_false_iff.
    pose proof (startsWith_end_app x c rest H1) as H.
    rewrite sapp_cons in *. cbn [countOutside]. rewrite H. by apply IH.
Qed.

Lemma count_inside_chars (p' c rest : string) :
  Str.includes "]]>" c = false ->
  countOutside (String "<" p') true
    (c +:+ String "]" (String "]" (String ">" rest)))
  = countOutside (String "<" p') false rest.
Proof. apply count_inside. Qed.

(** A CDATA section whose content does not end it is passed over whole. *)
Lemma count_cdata (p' c rest : string) :
  Str.includes "]]>" c = false ->
  countOutside (String "<" p') false ("<![CDATA[" +:+ c +:+ "]]>" +:+ rest)
  = countOutside (String "<" p') false rest.
Proof. intros H. rewrite <- (count_inside p' c rest H). reflexivity. Qed.

Lemma all_impl (P Q : ascii -> bool) (s : string) :
  (forall c, P c = true -> Q c = true) ->
  Str.all P s = true -> Str.all Q s = true.
Proof.
  intros I. induction s as [|c s IH]; [done|]. cbn [Str.all].
  intros [Hc Hs]%andb_true_iff. by rewrite (I _ Hc), IH.
Qed.

Lemma noTag_escape (s : string) : noTag (Spec.escape s).
Proof.
  unfold noTag. eapply all_impl; [|apply escape_no_markup].
  intros [[] [] [] [] [] [] [] []]; vm_compute; done.
Qed.

Lemma noTag_toUTCString (t : Z) : noTag (JSDate.toUTCString t).
Proof.
  unfold noTag. eapply all_impl; [|apply plain_toUTCString].
  intros [[] [] [] [] [] [] [] []]; vm_compute; done.
Qed.

Lemma noTag_pubDate (d : string) (post : Post.t) :
  noTag d -> noTag (Feed.pubDate d post).
Proof.
  intros H. unfold Feed.pubDate.
  destruct (Post.publish_date post) as [t|]; [|exact H].
  destruct (t =? 0)%Z; [exact H|apply noTag_toUTCString].
Qed.

Ltac count_steps :=
  repeat first
    [ rewrite count_value by assumption
    | rewrite count_cdata by assumption
    | rewrite count_inside_chars by assumption
    | progress cbn [countOutside Str.startsWith String.append Ascii.eqb
                    Bool.eqb Nat.add nl q dquote] ].

Context (config : Config.t) (d : string).
Context (Hurl : noTag (Config.feedUrl config)).
Context (Hemail : noTag (Config.authorEmail config)).
Context (Hdate : noTag d).

Lemma count_item (post : Post.t) (rest : string) :
  clean_post config post ->
  countOutside "<channel>" false
    (Feed.item (Feed.itemChildren id config d post) +:+ rest)
  = countOutside "<channel>" false rest
  /\ countOutside "<item>" false
       (Feed.item (Feed.itemChildren id config d post) +:+ rest)
     = S (countOutside "<item>" false rest).
Proof.
  intros [Hpost Hcdata].
  pose proof (noTag_escape (orElse (Post.title post) "Untitled Post")) as Ht.
  pose proof (noTag_pubDate d post Hdate) as Hp.
  unfold Feed.item, Feed.elements, Feed.itemChildren.
  cbn [map]. rewrite !join_cons, !join_nil. unfold Feed.element.
  cbn [fst snd id]. rewrite !sapp_assoc.
  split; count_steps; reflexivity.
Qed.

Lemma count_items (posts : list Post.t) (rest : string) :
  (forall post, In post posts -> clean_post config post) ->
  countOutside "<channel>" false
    (Str.join (map Feed.item (map (Feed.itemChildren id config d) posts))
       +:+ rest)
  = countOutside "<channel>" false rest
  /\ countOutside "<item>" false
       (Str.join (map Feed.item (map (Feed.itemChildren id config d) posts))
          +:+ rest)
     = length posts + countOutside "<item>" false rest.
Proof.
  induction posts as [|post posts IH]; intros H; [done|].
  cbn [map length]. rewrite join_cons, sapp_assoc.
  destruct (count_item post
              (Str.join (map Feed.item
                           (map (Feed.itemChildren id config d) posts))
                 +:+ rest)) as [-> ->]; [apply H; by left|].
  destruct IH as [-> ->]; [intros p Hp; apply H; by right|]. done.
Qed.

Lemma count_document (posts : list Post.t) :
  (forall post, In post posts -> clean_post config post) ->
  elements "channel"
    (Feed.document (Feed.channelChildren id config d)
       (map (Feed.itemChildren id config d) posts)) = 1
  /\ elements "item"
       (Feed.document (Feed.channelChildren id config d)
          (map (Feed.itemChildren id config d) posts)) = length posts.
Proof.
  intros H.
  pose proof (noTag_escape (Config.title config)) as Ht.
  pose proof (noTag_escape (Config.description config)) as Hs.
  unfold elements, Feed.document, Feed.prologue, Feed.elements,
    Feed.channelChildren.
  cbn [map]. rewrite !join_cons, !join_nil. unfold Feed.element.
  cbn [fst snd id]. rewrite !sapp_assoc.
  split; count_steps;
    destruct (count_items posts (nl +:+ "  </channel>" +:+ nl +:+ "</rss>") H)
      as [E1 E2]; cbn [String.append nl] in E1, E2;
    [rewrite E1|rewrite E2]; count_steps; [reflexivity|lia].
Qed.

End Counting.


